(** * lambda_ways: the TypeScript CRUD-logging Lambda

    A shallow embedding of [src/typescript/src/types.ts], of the utility
    module imported as ['./utils'] and of the handler of
    [src/typescript/src/index.ts], followed by the properties of the
    validation / classification / sanitization pipeline.

    Conventions of the embedding
    - a JavaScript string is the list of its UTF-16 code units;
    - a plain object is the list of its own enumerable properties in
      property order (what [Object.entries] returns), keys being pairwise
      distinct; the header mapping of a response, whose order is never
      observed, is a finite map;
    - [Result] values are a two-constructor sum, thrown values are the
      [Throw] outcome of the handler monad;
    - the host (JSON codec, clock, tracer segment, engine stack traces) is
      the record [Runtime]. *)

From Stdlib Require Import ZArith NArith QArith String Ascii DecimalString Lia.
From stdpp Require Import base option list strings gmap.

Local Open Scope N_scope.
Local Open Scope list_scope.

(** ** JavaScript strings *)

(** A string is a sequence of 16-bit code units; [js] embeds a literal. *)
Abbreviation jsstring := (list N).

Definition js (s : string) : jsstring :=
  (λ a, N_of_ascii a) <$> list_ascii_of_string s.

(** [s.length] *)
Definition str_length (s : jsstring) : N := N.of_nat (length s).

(** [s.includes(needle)]: [needle] occurs as a contiguous run of [s]. *)
Fixpoint starts_with (needle s : jsstring) : bool :=
  match needle, s with
  | [], _ => true
  | _ :: _, [] => false
  | a :: needle', b :: s' => bool_decide (a = b) && starts_with needle' s'
  end.

Fixpoint includes (s needle : jsstring) : bool :=
  starts_with needle s
  || match s with
     | [] => false
     | _ :: s' => includes s' needle
     end.

(** [s.toLowerCase()] on the ASCII letters.  The Unicode case mappings of
    other code units are not modelled; none of them produces the letters
    [i] or [d] next to each other, which is all the caller looks for. *)
Definition lower_unit (c : N) : N :=
  if (65 <=? c) && (c <=? 90) then c + 32 else c.

Definition toLowerCase (s : jsstring) : jsstring := lower_unit <$> s.

(** The character class [[\x00-\x1F\x7F-\x9F]] of [sanitizeInput]. *)
Definition is_control (c : N) : bool :=
  (c <=? 0x1F) || ((0x7F <=? c) && (c <=? 0x9F)).

(** ** Values *)

(** What [unknown] ranges over in this program: the values [JSON.parse]
    can produce, and [undefined].  A number is carried as a rational; the
    code under study never computes with the numbers of a payload. *)
Unset Elimination Schemes.
Inductive JsValue : Type :=
| JUndefined
| JNull
| JBoolean (b : bool)
| JNumber (q : Q)
| JString (s : jsstring)
| JArray (items : list JsValue)
| JObject (entries : list (jsstring * JsValue)).
Set Elimination Schemes.

(** Induction over a value reaches the elements of an array and the
    property values of an object. *)
Fixpoint JsValue_ind (P : JsValue → Prop)
    (Hundefined : P JUndefined) (Hnull : P JNull)
    (Hboolean : ∀ b, P (JBoolean b)) (Hnumber : ∀ q, P (JNumber q))
    (Hstring : ∀ s, P (JString s))
    (Harray : ∀ items, Forall P items → P (JArray items))
    (Hobject : ∀ entries, Forall (λ kv, P kv.2) entries → P (JObject entries))
    (value : JsValue) {struct value} : P value :=
  let rec := JsValue_ind P Hundefined Hnull Hboolean Hnumber Hstring Harray Hobject in
  match value with
  | JUndefined => Hundefined
  | JNull => Hnull
  | JBoolean b => Hboolean b
  | JNumber q => Hnumber q
  | JString s => Hstring s
  | JArray items =>
      Harray items
        ((fix all (l : list JsValue) : Forall P l :=
            match l with
            | [] => Forall_nil_2 P
            | x :: l' => Forall_cons_2 P x l' (rec x) (all l')
            end) items)
  | JObject entries =>
      Hobject entries
        ((fix all (l : list (jsstring * JsValue)) : Forall (λ kv, P kv.2) l :=
            match l with
            | [] => Forall_nil_2 _
            | kv :: l' => Forall_cons_2 (λ kv, P kv.2) kv l' (rec kv.2) (all l')
            end) entries)
  end.

(** [Record<string, unknown>] *)
Abbreviation JsRecord := (list (jsstring * JsValue)).

(** [typeof value] *)
Definition typeof (value : JsValue) : jsstring :=
  match value with
  | JUndefined => js "undefined"
  | JNull | JArray _ | JObject _ => js "object"
  | JBoolean _ => js "boolean"
  | JNumber _ => js "number"
  | JString _ => js "string"
  end.

Definition is_null (value : JsValue) : bool :=
  match value with JNull => true | _ => false end.

(** Array index [i] as a property key: its decimal numeral. *)
Definition index_key (i : nat) : jsstring :=
  js (NilZero.string_of_uint (Nat.to_uint i)).

(** [Object.entries(value)].  An array lists its elements under their
    indices, a string its code units; a primitive has no entries. *)
Definition Object_entries (value : JsValue) : JsRecord :=
  match value with
  | JObject entries => entries
  | JArray items => imap (λ i x, (index_key i, x)) items
  | JString s => imap (λ i c, (index_key i, JString [c])) s
  | _ => []
  end.

(** Own-property lookup [o[key]]; [None] is [undefined]. *)
Fixpoint obj_get {V} (o : list (jsstring * V)) (key : jsstring) : option V :=
  match o with
  | [] => None
  | (k, v) :: rest => if decide (k = key) then Some v else obj_get rest key
  end.

(** Writing a data property: an existing key keeps its place, a new one
    goes last. *)
Fixpoint obj_update {V} (key : jsstring) (v : V) (o : list (jsstring * V))
  : list (jsstring * V) :=
  match o with
  | [] => [(key, v)]
  | (k, w) :: rest =>
      if decide (k = key) then (k, v) :: rest else (k, w) :: obj_update key v rest
  end.

(** The assignment [o[key] = v] on an object created by the literal [{}].
    Such an object inherits the accessor [__proto__] of [Object.prototype]:
    assigning to that key calls the accessor, which changes the prototype
    or does nothing, and never creates an own property. *)
Definition obj_set (key : jsstring) (v : JsValue) (o : JsRecord) : JsRecord :=
  if decide (key = js "__proto__") then o else obj_update key v o.

(** ** Errors and results ([types.ts]) *)

(** The class an error object was constructed by, which is what
    [instanceof] observes. *)
Inductive ErrorClass :=
| Error_class
| ValidationError_class
| AuthorizationError_class
| NotFoundError_class
| SyntaxError_class
| TypeError_class.

Global Instance ErrorClass_eq_dec : EqDecision ErrorClass :=
  ltac:(solve_decision).

(** An error object: [name] and [message] of [Error], and the two public
    properties a [ValidationError] adds. *)
Record JsError := {
  error_class : ErrorClass;
  error_name : jsstring;
  error_message : jsstring;
  error_field : option jsstring;
  error_value : option JsValue
}.

(** [new Error(message)] *)
Definition new_Error (message : jsstring) : JsError :=
  {| error_class := Error_class; error_name := js "Error";
     error_message := message; error_field := None; error_value := None |}.

(** [new ValidationError(field, value)]: the message handed to [super]
    names the field only. *)
Definition ValidationError (field : jsstring) (value : JsValue) : JsError :=
  {| error_class := ValidationError_class;
     error_name := js "ValidationError";
     error_message := js "Validation failed for field " ++ field;
     error_field := Some field;
     error_value := Some value |}.



(** [error instanceof C] *)
Definition instanceof (e : JsError) (c : ErrorClass) : bool :=
  bool_decide (error_class e = c).

(** [Result<T>]: [{ ok: true, value }] or [{ ok: false, error }]. *)
Inductive Result (T : Type) : Type :=
| Ok (value : T)
| Err (error : JsError).
Arguments Ok {T} value.
Arguments Err {T} error.

Inductive CrudOperation := CREATE | READ | UPDATE | DELETE.

(** The string a [CrudOperation] is at run time. *)
Definition CrudOperation_string (op : CrudOperation) : jsstring :=
  match op with
  | CREATE => js "CREATE"
  | READ => js "READ"
  | UPDATE => js "UPDATE"
  | DELETE => js "DELETE"
  end.

Definition isString (value : JsValue) : bool :=
  match value with JString _ => true | _ => false end.

Definition HTTP_METHODS : list jsstring :=
  [js "GET"; js "POST"; js "PUT"; js "PATCH"; js "DELETE"].

Definition isValidHttpMethod (method : JsValue) : bool :=
  match method with
  | JString m => bool_decide (m ∈ HTTP_METHODS)
  | _ => false
  end.

(** ** Sanitization *)

Definition MAX_INPUT_LENGTH : N := 10000.

Definition sanitizeInput (input : jsstring) : jsstring :=
  let sanitized := filter (λ c, is_control c = false) input in
  if MAX_INPUT_LENGTH <? str_length sanitized
  then take (N.to_nat MAX_INPUT_LENGTH) sanitized
  else sanitized.

(** The body of the [for] loop of [validateAndSanitizeObject] for one
    entry; [recur] is the function itself, called on nested objects. *)
Definition sanitize_entry (recur : JsValue → Result JsRecord)
    (key : jsstring) (value : JsValue) (sanitized : JsRecord) : Result JsRecord :=
  if negb (isString (JString key)) || (str_length key =? 0) || (100 <? str_length key)
  then Err (ValidationError (js "key") (JString (js "Invalid key: " ++ key)))
  else
    match value with
    | JString s => Ok (obj_set key (JString (sanitizeInput s)) sanitized)
    | _ =>
        if bool_decide (typeof value = js "object") && negb (is_null value)
        then
          match recur value with
          | Err e => Err e
          | Ok nested => Ok (obj_set key (JObject nested) sanitized)
          end
        else Ok (obj_set key value sanitized)
    end.

(** The [for] loop over the entries of an object, and over the entries
    of an array, which are its elements under their indices starting at
    [i]. *)
Definition sanitize_entries (recur : JsValue → Result JsRecord)
  : JsRecord → JsRecord → Result JsRecord :=
  fix loop (entries : JsRecord) (sanitized : JsRecord) : Result JsRecord :=
    match entries with
    | [] => Ok sanitized
    | (key, value) :: rest =>
        match sanitize_entry recur key value sanitized with
        | Err e => Err e
        | Ok sanitized' => loop rest sanitized'
        end
    end.

Definition sanitize_items (recur : JsValue → Result JsRecord)
  : list JsValue → nat → JsRecord → Result JsRecord :=
  fix loop (items : list JsValue) (i : nat) (sanitized : JsRecord)
    : Result JsRecord :=
    match items with
    | [] => Ok sanitized
    | value :: rest =>
        match sanitize_entry recur (index_key i) value sanitized with
        | Err e => Err e
        | Ok sanitized' => loop rest (S i) sanitized'
        end
    end.

(** The recursion follows the structure of the value.  [typeof] of an
    array is ["object"], so an array passes the guard and its entries are
    sanitized like the properties of an object. *)
Fixpoint validateAndSanitizeObject (obj : JsValue) : Result JsRecord :=
  match obj with
  | JObject entries => sanitize_entries validateAndSanitizeObject entries []
  | JArray items => sanitize_items validateAndSanitizeObject items 0%nat []
  | _ => Err (ValidationError (js "object") (JString (js "Expected an object")))
  end.

(** ** Events ([aws-lambda]) *)

(** [Record<string, string | undefined>]: the path parameters, the query
    parameters and the headers of an event. *)
Abbreviation Params := (list (jsstring * option jsstring)).

(** The fields of [APIGatewayProxyEventV2] and of the Lambda [Context]
    that the program reads. *)
Module Event.
Record Http := {
  method : jsstring;
  path : jsstring;
  sourceIp : jsstring;
  userAgent : jsstring
}.

Record RequestContext := {
  http : Http;
  requestId : jsstring;
  accountId : jsstring;
  stage : jsstring
}.

(** [requestContext] is optional here although the declared type
    requires it: the handler's own test removes it to reach the
    [catch] block. *)
Record t := {
  requestContext : option RequestContext;
  headers : Params;
  queryStringParameters : option Params;
  pathParameters : option Params;
  body : option jsstring
}.
End Event.

Record Context := {
  awsRequestId : jsstring;
  functionName : jsstring
}.

(** [isString(value) && value.length > 0] for a value of type
    [string | undefined], with the string it narrows to. *)
Definition nonempty_string (value : option jsstring) : option jsstring :=
  match value with
  | Some s => if 0 <? str_length s then Some s else None
  | None => None
  end.

(** ** Classification and resource identifiers *)

Definition mapHttpMethodToCrudOperation (method : jsstring) (hasResourceId : bool)
  : Result CrudOperation :=
  if decide (method = js "GET") then Ok READ
  else if decide (method = js "POST") then Ok CREATE
  else if decide (method = js "PUT" ∨ method = js "PATCH") then
    if hasResourceId then Ok UPDATE
    else Err (ValidationError (js "resourceId")
                (JString (js "Resource ID required for update operations")))
  else if decide (method = js "DELETE") then
    if hasResourceId then Ok DELETE
    else Err (ValidationError (js "resourceId")
                (JString (js "Resource ID required for delete operations")))
  else Err (new_Error (js "Unsupported HTTP method: " ++ method)).

Definition idParameterNames : list jsstring :=
  [js "id"; js "resourceId"; js "itemId"; js "entityId"].

(** The first loop of [extractResourceId]. *)
Fixpoint first_candidate (pathParameters : Params) (names : list jsstring)
  : option jsstring :=
  match names with
  | [] => None
  | paramName :: names' =>
      match nonempty_string (mjoin (obj_get pathParameters paramName)) with
      | Some value => Some value
      | None => first_candidate pathParameters names'
      end
  end.

(** The second loop of [extractResourceId], over [Object.entries]. *)
Fixpoint first_id_like (entries : Params) : option jsstring :=
  match entries with
  | [] => None
  | (key, value) :: entries' =>
      if includes (toLowerCase key) (js "id")
      then match nonempty_string value with
           | Some value => Some value
           | None => first_id_like entries'
           end
      else first_id_like entries'
  end.

Definition extractResourceId (event : Event.t) : option jsstring :=
  match Event.pathParameters event with
  | None => None
  | Some pathParameters =>
      match first_candidate pathParameters idParameterNames with
      | Some value => Some value
      | None => first_id_like pathParameters
      end
  end.

(** ** The host and the handler monad *)

(** What the program throws or catches: an [Error] object, or any other
    value. *)
Inductive Thrown :=
| ThrownError (e : JsError)
| ThrownValue (v : JsValue).

Inductive Outcome (A : Type) : Type :=
| Return (a : A)
| Throw (t : Thrown).
Arguments Return {A} a.
Arguments Throw {A} t.

(** The services of the host.  [JSON_stringify v space] is
    [JSON.stringify(v, null, space)], and [JSON.stringify(v)] is the case
    [space = 0]; [Date_toISOString n] is what the [n]-th evaluation of
    [new Date().toISOString()] returns; [stack e] is [e.stack];
    [segment] tells whether [tracer.getSegment()] returns a segment;
    [TypeError_message] is the engine's text for reading a property of
    [undefined]. *)
Record Runtime := {
  JSON_parse : jsstring → Outcome JsValue;
  JSON_stringify : JsValue → N → jsstring;
  Date_toISOString : nat → jsstring;
  stack : JsError → jsstring;
  segment : bool;
  TypeError_message : jsstring
}.

(** One record per call to the logger, to the console or to the tracer
    segment. *)
Inductive LogEntry :=
| logger_addPersistentLogAttributes (attributes : JsRecord)
| logger_info (message : jsstring) (fields : JsRecord)
| logger_error (message : jsstring) (fields : JsRecord)
| console_log (args : list JsValue)
| segment_close.

Record State := {
  log : list LogEntry;
  clock : nat
}.

(** A computation reads and extends the state and either returns or
    throws. *)
Definition M (A : Type) : Type := State → Outcome A * State.

Global Instance M_ret : MRet M := λ A a st, (Return a, st).

Global Instance M_bind : MBind M := λ A B f m st,
  match m st with
  | (Return a, st') => f a st'
  | (Throw t, st') => (Throw t, st')
  end.

Definition throw {A} (t : Thrown) : M A := λ st, (Throw t, st).

Definition emit (entry : LogEntry) : M unit := λ st,
  (Return (), {| log := log st ++ [entry]; clock := clock st |}).

(** [new Date().toISOString()] *)
Definition now (rt : Runtime) : M jsstring := λ st,
  (Return (Date_toISOString rt (clock st)),
   {| log := log st; clock := S (clock st) |}).

(** [try { body } catch (error) { handler } finally { finalizer }] *)
Definition try_catch_finally {A} (body : M A) (handler : Thrown → M A)
    (finalizer : M unit) : M A := λ st,
  let after :=
    match body st with
    | (Return a, st') => (Return a, st')
    | (Throw t, st') => handler t st'
    end in
  match finalizer after.2 with
  | (Return _, st'') => (after.1, st'')
  | (Throw t, st'') => (Throw t, st'')
  end.

(** [event.requestContext], whose members are read next: a [TypeError]
    when it is [undefined]. *)
Definition TypeError (rt : Runtime) : JsError :=
  {| error_class := TypeError_class; error_name := js "TypeError";
     error_message := TypeError_message rt;
     error_field := None; error_value := None |}.

Definition get_requestContext (rt : Runtime) (event : Event.t)
  : Outcome Event.RequestContext :=
  match Event.requestContext event with
  | Some rc => Return rc
  | None => Throw (ThrownError (TypeError rt))
  end.

Definition lift {A} (o : Outcome A) : M A := λ st, (o, st).

(** ** Responses *)

Record ApiResponse := {
  statusCode : Z;
  headers : gmap jsstring jsstring;
  body : jsstring
}.

Definition STANDARD_HEADERS_entries : list (jsstring * jsstring) :=
  [ (js "Content-Type", js "application/json");
    (js "X-Content-Type-Options", js "nosniff");
    (js "X-Frame-Options", js "DENY");
    (js "X-XSS-Protection", js "1; mode=block");
    (js "Strict-Transport-Security", js "max-age=31536000; includeSubDomains");
    (js "Cache-Control", js "no-store, no-cache, must-revalidate");
    (js "Pragma", js "no-cache") ].

Definition STANDARD_HEADERS : gmap jsstring jsstring :=
  list_to_map STANDARD_HEADERS_entries.

(** The spread [{ ...STANDARD_HEADERS, ...headers }]: on a common key the
    later operand wins. *)
Definition createApiResponse (rt : Runtime) (statusCode : Z) (body : JsValue)
    (headers : gmap jsstring jsstring) : ApiResponse :=
  {| statusCode := statusCode;
     headers := headers ∪ STANDARD_HEADERS;
     body := JSON_stringify rt body 0 |}.

(** An omitted [statusCode] is [None]. *)
Definition successResponse (rt : Runtime) (data : JsValue) (statusCode : option Z)
  : ApiResponse :=
  createApiResponse rt (default 200%Z statusCode)
    (JObject [(js "success", JBoolean true); (js "data", data)]) ∅.

Definition number (z : Z) : JsValue := JNumber (inject_Z z).

Definition string_or_undefined (value : option jsstring) : JsValue :=
  from_option JString JUndefined value.

(** The body of an error envelope before serialization. *)
Definition error_body (errorName errorMessage : jsstring) : JsValue :=
  JObject [ (js "success", JBoolean false);
            (js "error", JObject [ (js "name", JString errorName);
                                   (js "message", JString errorMessage) ]) ].

(** [errorResponse(error, statusCode)] for [error : Error | string]. *)
Definition errorResponse (rt : Runtime) (error : JsError + jsstring)
    (statusCode : option Z) : M ApiResponse :=
  let statusCode := default 500%Z statusCode in
  let errorMessage := match error with inl e => error_message e | inr s => s end in
  let errorName := match error with inl e => error_name e | inr _ => js "Error" end in
  emit (logger_error (js "API Error")
          [ (js "statusCode", number statusCode);
            (js "errorName", JString errorName);
            (js "errorMessage", JString errorMessage);
            (js "stack", match error with
                         | inl e => JString (stack rt e)
                         | inr _ => JUndefined
                         end) ]);;
  mret (createApiResponse rt statusCode (error_body errorName errorMessage) ∅).

(** ** Request parsing and context *)

Definition parseRequestBody (rt : Runtime) (body : option jsstring) : Result JsValue :=
  match body with
  | None | Some [] => Ok (JObject [])
  | Some body =>
      match JSON_parse rt body with
      | Return parsed => Ok parsed
      | Throw error =>
          Err (ValidationError (js "body")
                 (JString (js "Invalid JSON: " ++
                           match error with
                           | ThrownError e => error_message e
                           | ThrownValue _ => js "Unknown error"
                           end)))
      end
  end.

Record RequestContext := {
  event : Event.t;
  context : Context;
  operation : CrudOperation;
  resourceId : option jsstring
}.

Definition createRequestContext (rt : Runtime) (event : Event.t) (context : Context)
  : Outcome (Result RequestContext) :=
  match get_requestContext rt event with
  | Throw t => Throw t
  | Return rc =>
      let method := Event.method (Event.http rc) in
      if negb (isValidHttpMethod (JString method))
      then Return (Err (ValidationError (js "method")
                          (JString (js "Invalid HTTP method: " ++ method))))
      else
        let resourceId := extractResourceId event in
        let operationResult :=
          mapHttpMethodToCrudOperation method (bool_decide (resourceId ≠ None)) in
        match operationResult with
        | Err e => Return (Err e)
        | Ok op =>
            Return (Ok {| event := event; context := context;
                          operation := op; resourceId := resourceId |})
        end
  end.

Definition Params_value (p : Params) : JsValue :=
  JObject ((λ kv, (kv.1, string_or_undefined kv.2)) <$> p).

(** [!!event.body] *)
Definition hasBody (event : Event.t) : bool :=
  match Event.body event with
  | None | Some [] => false
  | Some _ => true
  end.

Definition logRequest (rt : Runtime) (context : RequestContext) : M unit :=
  let event := event context in
  rc ← lift (get_requestContext rt event);
  let http := Event.http rc in
  emit (logger_info (js "Incoming request")
          [ (js "operation", JString (CrudOperation_string (operation context)));
            (js "resourceId", string_or_undefined (resourceId context));
            (js "method", JString (Event.method http));
            (js "path", JString (Event.path http));
            (js "sourceIp", JString (Event.sourceIp http));
            (js "userAgent", JString (Event.userAgent http));
            (js "requestId", JString (Event.requestId rc));
            (js "accountId", JString (Event.accountId rc));
            (js "stage", JString (Event.stage rc));
            (js "headers", Params_value (Event.headers event));
            (js "queryStringParameters",
               from_option Params_value JUndefined (Event.queryStringParameters event));
            (js "hasBody", JBoolean (hasBody event));
            (js "bodyLength",
               JNumber (inject_Z (Z.of_N (from_option str_length 0 (Event.body event))))) ]).

(** ** The handler ([index.ts]) *)

Definition newline : jsstring := [10].

(** The opening lines shared by the four operation handlers. *)
Definition log_request_lines (rt : Runtime) (context : RequestContext)
    (withMethod : bool) : M unit :=
  timestamp ← now rt;
  emit (console_log [JString (js "Timestamp:"); JString timestamp]);;
  rc ← lift (get_requestContext rt (event context));
  emit (console_log [JString (js "Request ID:"); JString (Event.requestId rc)]);;
  emit (console_log [JString (js "Path:"); JString (Event.path (Event.http rc))]);;
  (if withMethod
   then emit (console_log [JString (js "Method:");
                           JString (Event.method (Event.http rc))])
   else mret ());;
  emit (console_log [JString (js "Source IP:");
                     JString (Event.sourceIp (Event.http rc))]);;
  emit (console_log [JString (js "User Agent:");
                     JString (Event.userAgent (Event.http rc))]).

(** [body && Object.keys(body).length > 0] and the two lines it selects. *)
Definition log_request_body (rt : Runtime) (body : option JsRecord) : M unit :=
  match body with
  | Some (entry :: entries) =>
      emit (console_log [JString (js "Request Body:");
                         JString (JSON_stringify rt (JObject (entry :: entries)) 2)])
  | _ => emit (console_log [JString (js "Request Body: (empty)")])
  end.

Definition log_headers (rt : Runtime) (context : RequestContext) : M unit :=
  emit (console_log
          [JString (js "Headers:");
           JString (JSON_stringify rt (Params_value (Event.headers (event context))) 2)]).

Definition handleCreate (rt : Runtime) (context : RequestContext)
    (body : option JsRecord) : M unit :=
  emit (console_log [JString (js "=== CREATE Operation ===")]);;
  log_request_lines rt context false;;
  log_request_body rt body;;
  log_headers rt context;;
  emit (console_log [JString (js "========================" ++ newline)]).

Definition handleRead (rt : Runtime) (context : RequestContext) : M unit :=
  emit (console_log [JString (js "=== READ Operation ===")]);;
  log_request_lines rt context false;;
  match resourceId context with
  | Some (c :: id) =>
      emit (console_log [JString (js "Resource ID:"); JString (c :: id)])
  | _ =>
      emit (console_log [JString (js "Resource ID: (not specified - list operation)")])
  end;;
  match Event.queryStringParameters (event context) with
  | Some query =>
      emit (console_log [JString (js "Query Parameters:");
                         JString (JSON_stringify rt (Params_value query) 2)])
  | None => mret ()
  end;;
  log_headers rt context;;
  emit (console_log [JString (js "======================" ++ newline)]).

Definition handleUpdate (rt : Runtime) (context : RequestContext)
    (body : option JsRecord) : M unit :=
  emit (console_log [JString (js "=== UPDATE Operation ===")]);;
  log_request_lines rt context true;;
  emit (console_log [JString (js "Resource ID:");
                     string_or_undefined (resourceId context)]);;
  log_request_body rt body;;
  log_headers rt context;;
  emit (console_log [JString (js "========================" ++ newline)]).

Definition handleDelete (rt : Runtime) (context : RequestContext) : M unit :=
  emit (console_log [JString (js "=== DELETE Operation ===")]);;
  log_request_lines rt context false;;
  emit (console_log [JString (js "Resource ID:");
                     string_or_undefined (resourceId context)]);;
  log_headers rt context;;
  emit (console_log [JString (js "=========================" ++ newline)]).

(** The [switch] on the operation and the success response after it. *)
Definition handler_dispatch (rt : Runtime) (requestContext : RequestContext)
    (requestBody : option JsRecord) : M ApiResponse :=
  match operation requestContext with
  | CREATE => handleCreate rt requestContext requestBody
  | READ => handleRead rt requestContext
  | UPDATE => handleUpdate rt requestContext requestBody
  | DELETE => handleDelete rt requestContext
  end;;
  timestamp ← now rt;
  mret (successResponse rt
          (JObject
             [ (js "message",
                  JString (CrudOperation_string (operation requestContext)
                           ++ js " operation logged successfully"));
               (js "operation", JString (CrudOperation_string (operation requestContext)));
               (js "resourceId", string_or_undefined (resourceId requestContext));
               (js "timestamp", JString timestamp) ])
          None).

(** The body of the [try] block. *)
Definition handler_try (rt : Runtime) (event : Event.t) (context : Context)
  : M ApiResponse :=
  contextResult ← lift (createRequestContext rt event context);
  match contextResult with
  | Err error => errorResponse rt (inl error) (Some 400%Z)
  | Ok requestContext =>
      logRequest rt requestContext;;
      if hasBody event then
        match parseRequestBody rt (Event.body event) with
        | Err error => errorResponse rt (inl error) (Some 400%Z)
        | Ok parsed =>
            match validateAndSanitizeObject parsed with
            | Err error => errorResponse rt (inl error) (Some 400%Z)
            | Ok requestBody => handler_dispatch rt requestContext (Some requestBody)
            end
        end
      else handler_dispatch rt requestContext None
  end.

(** The [catch] block. *)
Definition handler_catch (rt : Runtime) (error : Thrown) : M ApiResponse :=
  match error with
  | ThrownError e =>
      if instanceof e ValidationError_class then errorResponse rt (inl e) (Some 400%Z)
      else if instanceof e AuthorizationError_class then errorResponse rt (inl e) (Some 403%Z)
      else if instanceof e NotFoundError_class then errorResponse rt (inl e) (Some 404%Z)
      else
        emit (logger_error (js "Unexpected error in Lambda handler")
                [ (js "error", JString (error_message e));
                  (js "stack", JString (stack rt e)) ]);;
        errorResponse rt (inl e) (Some 500%Z)
  | ThrownValue _ =>
      emit (logger_error (js "Unexpected error in Lambda handler")
              [ (js "error", JString (js "Unknown error"));
                (js "stack", JUndefined) ]);;
      errorResponse rt (inl (new_Error (js "Internal server error"))) (Some 500%Z)
  end.

Definition Context_value (context : Context) : JsValue :=
  JObject [ (js "awsRequestId", JString (awsRequestId context));
            (js "functionName", JString (functionName context)) ].

Definition handler (rt : Runtime) (event : Event.t) (context : Context)
  : M ApiResponse :=
  emit (logger_addPersistentLogAttributes
          [ (js "lambdaContext", Context_value context);
            (js "awsRequestId", JString (awsRequestId context));
            (js "functionName", JString (functionName context)) ]);;
  try_catch_finally
    (handler_try rt event context)
    (handler_catch rt)
    (if segment rt then emit segment_close else mret ()).

(** ** Vocabulary of the properties *)

(** The test the loop of [validateAndSanitizeObject] puts on a key. *)
Definition key_ok (key : jsstring) : bool :=
  negb (negb (isString (JString key)) || (str_length key =? 0)
        || (100 <? str_length key)).

(** A value that the loop stores as it is, under any accepted key. *)
Definition stored_unchanged (value : JsValue) : Prop :=
  ∀ key sanitized,
    key_ok key = true →
    sanitize_entry validateAndSanitizeObject key value sanitized
    = Ok (obj_set key value sanitized).

(** The shape of a record the sanitizer has built: distinct accepted keys,
    none of them [__proto__], each with a value stored as it is. *)
Definition sanitized_record (l : JsRecord) : Prop :=
  NoDup l.*1
  ∧ Forall (λ kv, key_ok kv.1 = true ∧ kv.1 ≠ js "__proto__"
                  ∧ stored_unchanged kv.2) l.

(** Sanitizing the sanitized output of a value gives that output back. *)
Definition idempotent_at (value : JsValue) : Prop :=
  ∀ nested,
    validateAndSanitizeObject value = Ok nested →
    validateAndSanitizeObject (JObject nested) = Ok nested.

(** The failures the pipeline functions return. *)
Inductive pipeline_error : JsError → Prop :=
| error_of_mapHttpMethodToCrudOperation method hasResourceId e :
    mapHttpMethodToCrudOperation method hasResourceId = Err e →
    pipeline_error e
| error_of_parseRequestBody rt body e :
    parseRequestBody rt body = Err e →
    pipeline_error e
| error_of_validateAndSanitizeObject obj e :
    validateAndSanitizeObject obj = Err e →
    pipeline_error e
| error_of_createRequestContext rt event context e :
    createRequestContext rt event context = Return (Err e) →
    pipeline_error e.

(** Record updates used to state the properties. *)
Definition with_method (method : jsstring) (rc : Event.RequestContext)
  : Event.RequestContext :=
  {| Event.http :=
       {| Event.method := method;
          Event.path := Event.path (Event.http rc);
          Event.sourceIp := Event.sourceIp (Event.http rc);
          Event.userAgent := Event.userAgent (Event.http rc) |};
     Event.requestId := Event.requestId rc;
     Event.accountId := Event.accountId rc;
     Event.stage := Event.stage rc |}.

Definition with_body (body : option jsstring) (event : Event.t) : Event.t :=
  {| Event.requestContext := Event.requestContext event;
     Event.headers := Event.headers event;
     Event.queryStringParameters := Event.queryStringParameters event;
     Event.pathParameters := Event.pathParameters event;
     Event.body := body |}.

Definition with_JSON_parse (parse : jsstring → Outcome JsValue) (rt : Runtime)
  : Runtime :=
  {| JSON_parse := parse;
     JSON_stringify := JSON_stringify rt;
     Date_toISOString := Date_toISOString rt;
     stack := stack rt;
     segment := segment rt;
     TypeError_message := TypeError_message rt |}.

(** The event of the handler's test suite, with the given method, path
    parameters and body. *)
Definition test_event (method : jsstring) (pathParameters : option Params)
    (body : option jsstring) : Event.t :=
  {| Event.requestContext :=
       Some {| Event.http :=
                 {| Event.method := method;
                    Event.path := js "/api/items";
                    Event.sourceIp := js "192.168.1.1";
                    Event.userAgent := js "test-agent" |};
               Event.requestId := js "test-request-id";
               Event.accountId := js "123456789012";
               Event.stage := js "test" |};
     Event.headers :=
       [ (js "content-type", Some (js "application/json"));
         (js "user-agent", Some (js "test-agent"));
         (js "x-forwarded-for", Some (js "192.168.1.1")) ];
     Event.queryStringParameters := None;
     Event.pathParameters := pathParameters;
     Event.body := body |}.

Definition test_context : Context :=
  {| awsRequestId := js "test-aws-request-id";
     functionName := js "test-function" |}.

(** A host whose parser rejects every text and whose printer prints
    nothing; enough to run the paths that do not depend on either. *)
Definition test_runtime : Runtime :=
  {| JSON_parse := λ _,
       Throw (ThrownError
                {| error_class := SyntaxError_class;
                   error_name := js "SyntaxError";
                   error_message := js "Unexpected token";
                   error_field := None; error_value := None |});
     JSON_stringify := λ _ _, [];
     Date_toISOString := λ _, js "2023-01-01T00:00:00.000Z";
     stack := λ _, [];
     segment := true;
     TypeError_message := js "Cannot read properties of undefined" |}.

Definition initial_state : State := {| log := []; clock := 0 |}.

(** The payloads of two tests of [validateAndSanitizeObject]. *)
Definition payload_with_array : JsValue :=
  JObject [ (js "count", number 123);
            (js "active", JBoolean true);
            (js "items", JArray [number 1; number 2; number 3]);
            (js "nullable", JNull) ].

Definition payload_with_control_characters : JsValue :=
  JObject [ (js "name", JString (js "Test" ++ [0] ++ js "Name"));
            (js "user", JObject [ (js "bio", JString (js "Developer" ++ [0x1F])) ]);
            (js "tags", JArray [JString (js "a" ++ [0x7F]); JNull]) ].

(** A computation whose response, when it returns one, carries exactly the
    standard headers; and one that moreover always returns. *)
Definition returns_standard (m : M ApiResponse) : Prop :=
  ∀ st, match (m st).1 with
        | Return response => headers response = STANDARD_HEADERS
        | Throw _ => True
        end.

Definition always_standard (m : M ApiResponse) : Prop :=
  ∀ st, ∃ response,
    (m st).1 = Return response ∧ headers response = STANDARD_HEADERS.

(** ** The guards and assertions of [types.ts] *)

Definition isNonNullable (value : JsValue) : bool :=
  match value with
  | JNull | JUndefined => false
  | _ => true
  end.

(** [assertDefined(value, message)]; an omitted [message] is [None]. *)
Definition assertDefined (value : JsValue) (message : option jsstring)
  : Outcome unit :=
  match value with
  | JUndefined =>
      Throw (ThrownError (new_Error (default (js "Value is undefined") message)))
  | _ => Return ()
  end.

Definition assertNotNull (value : JsValue) (message : option jsstring)
  : Outcome unit :=
  match value with
  | JNull => Throw (ThrownError (new_Error (default (js "Value is null") message)))
  | _ => Return ()
  end.

(** ** Vocabulary of the further properties *)

(** A string the sanitizer has nothing to do on. *)
Definition clean_string (s : jsstring) : bool :=
  forallb (λ c, negb (is_control c)) s && (str_length s <=? 10000).

(** A value in which, at every depth, every key has between 1 and 100
    code units, every string is clean and there is no array. *)
Fixpoint deep_sanitized (value : JsValue) : bool :=
  match value with
  | JString s => clean_string s
  | JArray _ => false
  | JObject entries =>
      forallb (λ kv, key_ok kv.1 && deep_sanitized kv.2) entries
  | _ => true
  end.


(** What the sanitizer stores for a value it accepts. *)
Definition stored_form (value : JsValue) : option JsValue :=
  match value with
  | JString s => Some (JString (sanitizeInput s))
  | JArray _ | JObject _ =>
      match validateAndSanitizeObject value with
      | Ok nested => Some (JObject nested)
      | Err _ => None
      end
  | _ => Some value
  end.

(** A computation that only appends to the log. *)
Definition appends {A} (m : M A) : Prop :=
  ∀ st, ∃ entries, log (m st).2 = log st ++ entries.

(** The record [logger.addPersistentLogAttributes] receives. *)
Definition attributes_entry (context : Context) : LogEntry :=
  logger_addPersistentLogAttributes
    [ (js "lambdaContext", Context_value context);
      (js "awsRequestId", JString (awsRequestId context));
      (js "functionName", JString (functionName context)) ].

(** The record [errorResponse] logs for an [Error]. *)
Definition api_error_entry (rt : Runtime) (e : JsError) (statusCode : Z)
  : LogEntry :=
  logger_error (js "API Error")
    [ (js "statusCode", number statusCode);
      (js "errorName", JString (error_name e));
      (js "errorMessage", JString (error_message e));
      (js "stack", JString (stack rt e)) ].

(** What the [finally] block adds to the log. *)
Definition closing_entries (rt : Runtime) : list LogEntry :=
  if segment rt then [segment_close] else [].

Definition is_console_log (entry : LogEntry) : bool :=
  match entry with console_log _ => true | _ => false end.

(** The response of a run of the handler. *)
Definition response_of (run : Outcome ApiResponse * State) : option ApiResponse :=
  match run.1 with
  | Return response => Some response
  | Throw _ => None
  end.

(** The first line an operation handler prints. *)
Definition banner_entry (op : CrudOperation) : LogEntry :=
  console_log [JString (js "=== " ++ CrudOperation_string op ++ js " Operation ===")].

(** The line [handleCreate] and [handleUpdate] print for the body. *)
Definition body_entry (rt : Runtime) (requestBody : option JsRecord) : LogEntry :=
  match requestBody with
  | Some (entry :: entries) =>
      console_log [JString (js "Request Body:");
                   JString (JSON_stringify rt (JObject (entry :: entries)) 2)]
  | _ => console_log [JString (js "Request Body: (empty)")]
  end.

(** The envelope of a request that was logged, with its timestamp. *)
Definition success_envelope (rt : Runtime) (requestContext : RequestContext)
    (timestamp : jsstring) : ApiResponse :=
  {| statusCode := 200;
     headers := STANDARD_HEADERS;
     body :=
       JSON_stringify rt
         (JObject
            [ (js "success", JBoolean true);
              (js "data",
               JObject
                 [ (js "message",
                    JString (CrudOperation_string (operation requestContext)
                             ++ js " operation logged successfully"));
                   (js "operation",
                    JString (CrudOperation_string (operation requestContext)));
                   (js "resourceId", string_or_undefined (resourceId requestContext));
                   (js "timestamp", JString timestamp) ]) ]) 0 |}.

(** The envelope [errorResponse] builds for an [Error]. *)
Definition error_envelope (rt : Runtime) (e : JsError) (statusCode : Z)
  : ApiResponse :=
  {| statusCode := statusCode;
     headers := STANDARD_HEADERS;
     body := JSON_stringify rt (error_body (error_name e) (error_message e)) 0 |}.

(** The state after some more log records and clock readings. *)
Definition advance (st : State) (entries : list LogEntry) (readings : nat) : State :=
  {| log := log st ++ entries; clock := readings + clock st |}.

(** What the body of a request comes to: nothing to pass on, a sanitized
    record, or a failure of parsing or of sanitization. *)
Definition request_body (rt : Runtime) (ev : Event.t) : Result (option JsRecord) :=
  if hasBody ev then
    match parseRequestBody rt (Event.body ev) with
    | Err e => Err e
    | Ok parsed =>
        match validateAndSanitizeObject parsed with
        | Err e => Err e
        | Ok requestBody => Ok (Some requestBody)
        end
    end
  else Ok None.

(** The record the [catch] block logs for an unexpected [Error]. *)
Definition unexpected_error_entry (rt : Runtime) (e : JsError) : LogEntry :=
  logger_error (js "Unexpected error in Lambda handler")
    [ (js "error", JString (error_message e));
      (js "stack", JString (stack rt e)) ].

(** * Properties *)

(** ** Strings *)

Lemma starts_with_prefix (needle s : jsstring) :
  starts_with needle s = true ↔ ∃ rest, s = needle ++ rest.
Proof.
  revert s. induction needle as [|a needle IH]; intros s; simpl.
  - split; [eauto | done].
  - destruct s as [|b s]; simpl.
    + split; [done | intros [rest Hrest]; discriminate].
    + rewrite andb_true_iff, bool_decide_eq_true, IH. split.
      * intros [-> [rest ->]]. eauto.
      * intros [rest Hrest]. injection Hrest as -> ->. eauto.
Qed.

(** [includes] is the substring relation. *)
Lemma includes_spec (s needle : jsstring) :
  includes s needle = true ↔ ∃ before after, s = before ++ needle ++ after.
Proof.
  induction s as [|c s IH]; simpl.
  - rewrite orb_false_r, starts_with_prefix. split.
    + intros [rest Hrest]. exists [], rest. done.
    + intros [before [after H]]. destruct before; [eauto | discriminate].
  - rewrite orb_true_iff, starts_with_prefix, IH. split.
    + intros [[rest ->] | [before [after ->]]].
      * exists [], rest. done.
      * exists (c :: before), after. done.
    + intros [[|b before] [after H]]; simpl in H.
      * left. eauto.
      * right. injection H as -> ->. eauto.
Qed.

(** ** The string sanitizer *)

Section sanitizeInput.
Implicit Types (s : jsstring) (c : N).

Lemma sanitizeInput_cases s :
  sanitizeInput s = filter (λ c, is_control c = false) s
  ∨ sanitizeInput s
    = take (N.to_nat MAX_INPUT_LENGTH) (filter (λ c, is_control c = false) s)
      ∧ MAX_INPUT_LENGTH < str_length (filter (λ c, is_control c = false) s).
Proof.
  unfold sanitizeInput.
  destruct (N.ltb_spec MAX_INPUT_LENGTH
              (str_length (filter (λ c, is_control c = false) s))); auto.
Qed.

Lemma sanitizeInput_length s : str_length (sanitizeInput s) ≤ MAX_INPUT_LENGTH.
Proof.
  unfold sanitizeInput, str_length.
  generalize MAX_INPUT_LENGTH as m. intros m.
  destruct (N.ltb_spec m (N.of_nat (length (filter (λ c, is_control c = false) s))))
    as [Hlt | Hge]; [| lia].
  rewrite length_take. lia.
Qed.

Lemma sanitizeInput_no_control s :
  Forall (λ c, is_control c = false) (sanitizeInput s).
Proof.
  assert (Forall (λ c, is_control c = false) (filter (λ c, is_control c = false) s))
    as Hfilter.
  { apply Forall_forall. intros c Hc. by apply list_elem_of_filter in Hc as [? _]. }
  destruct (sanitizeInput_cases s) as [-> | [-> _]]; [done |].
  by apply Forall_take.
Qed.

Lemma filter_all (P : N → Prop) `{∀ c, Decision (P c)} s :
  Forall P s → filter P s = s.
Proof.
  induction 1 as [|c s Hc _ IH]; [done |].
  by rewrite filter_cons_True, IH.
Qed.

Lemma sanitizeInput_fixed s :
  Forall (λ c, is_control c = false) s →
  str_length s ≤ MAX_INPUT_LENGTH →
  sanitizeInput s = s.
Proof.
  intros Hclean Hlen. unfold sanitizeInput.
  rewrite (filter_all _ _ Hclean).
  destruct (N.ltb_spec MAX_INPUT_LENGTH (str_length s)); [lia | done].
Qed.

Lemma sanitizeInput_idempotent s :
  sanitizeInput (sanitizeInput s) = sanitizeInput s.
Proof.
  apply sanitizeInput_fixed;
    [apply sanitizeInput_no_control | apply sanitizeInput_length].
Qed.

Lemma is_control_ranges c :
  is_control c = false ↔ ¬ (0x00 ≤ c ≤ 0x1F) ∧ ¬ (0x7F ≤ c ≤ 0x9F).
Proof.
  unfold is_control.
  rewrite orb_false_iff, andb_false_iff, !N.leb_gt. lia.
Qed.
End sanitizeInput.

(** C6. For every string [s], [sanitizeInput s] has length at most 10000
    and contains no code unit in the ranges 0x00-0x1F and 0x7F-0x9F. *)
Theorem sanitizeInput_bounded_and_clean (s : jsstring) :
  str_length (sanitizeInput s) ≤ 10000
  ∧ ∀ c, c ∈ sanitizeInput s → ¬ (0x00 ≤ c ≤ 0x1F) ∧ ¬ (0x7F ≤ c ≤ 0x9F).
Proof.
  split.
  - apply (sanitizeInput_length s).
  - intros c Hc. apply is_control_ranges.
    by apply (proj1 (Forall_forall _ _) (sanitizeInput_no_control s)).
Qed.

Lemma sanitizeInput_bounded_and_clean_witness :
  str_length (sanitizeInput (js "Hello" ++ [0] ++ js "World" ++ [0x9F])) ≤ 10000
  ∧ ¬ (0x00 ≤ 72 ≤ 0x1F) ∧ ¬ (0x7F ≤ 72 ≤ 0x9F).
Proof.
  split.
  - apply (sanitizeInput_bounded_and_clean
             (js "Hello" ++ [0] ++ js "World" ++ [0x9F])).
  - apply (sanitizeInput_bounded_and_clean
             (js "Hello" ++ [0] ++ js "World" ++ [0x9F])).
    vm_compute. left.
Defined.

(** ** The object sanitizer *)

Lemma sanitize_items_entries recur (items : list JsValue) (i : nat)
    (sanitized : JsRecord) :
  sanitize_items recur items i sanitized
  = sanitize_entries recur (imap (λ j x, (index_key (i + j), x)) items) sanitized.
Proof.
  revert i sanitized.
  induction items as [|value rest IH]; intros i sanitized; [done |].
  rewrite imap_cons. simpl. rewrite Nat.add_0_r.
  destruct (sanitize_entry _ _ _ _) as [sanitized' | e]; [| done].
  rewrite IH. f_equal. apply imap_ext. intros j x _. simpl.
  by rewrite Nat.add_succ_r.
Qed.

(** The function in the shape of the source: the guard on [typeof obj],
    then the loop over [Object.entries(obj)]. *)
Lemma validateAndSanitizeObject_eq (obj : JsValue) :
  validateAndSanitizeObject obj =
    if negb (bool_decide (typeof obj = js "object")) || is_null obj
    then Err (ValidationError (js "object") (JString (js "Expected an object")))
    else sanitize_entries validateAndSanitizeObject (Object_entries obj) [].
Proof.
  destruct obj as [| | b | q | s | items | entries]; try reflexivity.
  apply (sanitize_items_entries _ items 0).
Qed.

Section object_update.
Context {V : Type}.
Implicit Types (o : list (jsstring * V)) (key : jsstring) (v : V).

Lemma obj_update_fresh key v o :
  key ∉ o.*1 → obj_update key v o = o ++ [(key, v)].
Proof.
  induction o as [|[k w] o IH]; intros Hfresh; simpl; [done |].
  rewrite fmap_cons, not_elem_of_cons in Hfresh. destruct Hfresh as [Hne Hfresh].
  destruct (decide (k = key)) as [-> | _]; [done |].
  by rewrite IH.
Qed.

Lemma obj_update_keys key v o :
  (obj_update key v o).*1 = if decide (key ∈ o.*1) then o.*1 else o.*1 ++ [key].
Proof.
  induction o as [|[k w] o IH]; [done |].
  cbn [obj_update]. rewrite fmap_cons. cbn [fst].
  destruct (decide (k = key)) as [-> | Hne].
  - rewrite decide_True by left. done.
  - rewrite fmap_cons, IH. cbn [fst].
    destruct (decide (key ∈ o.*1)) as [Hin | Hout].
    + rewrite decide_True by (by right). done.
    + rewrite decide_False; [done |].
      rewrite not_elem_of_cons. by split.
Qed.

Lemma obj_update_NoDup key v o : NoDup o.*1 → NoDup (obj_update key v o).*1.
Proof.
  intros Hnodup. rewrite obj_update_keys.
  destruct (decide (key ∈ o.*1)) as [Hin | Hout]; [done |].
  apply NoDup_app. repeat split; [done | | apply NoDup_singleton].
  intros k Hk Hk'. apply list_elem_of_singleton in Hk' as ->. done.
Qed.

Lemma obj_update_Forall (Q : jsstring * V → Prop) key v o :
  Forall Q o → Q (key, v) → Forall Q (obj_update key v o).
Proof.
  intros Ho Hkv. induction Ho as [|[k w] o Hk Ho IH]; simpl.
  - by constructor.
  - destruct (decide (k = key)) as [-> | _]; by constructor.
Qed.
End object_update.

(** What a successful pass of the loop body has stored. *)
Lemma sanitize_entry_Ok recur key value sanitized sanitized' :
  sanitize_entry recur key value sanitized = Ok sanitized' →
  key_ok key = true
  ∧ ∃ stored, sanitized' = obj_set key stored sanitized
      ∧ match value with
        | JString s => stored = JString (sanitizeInput s)
        | JArray _ | JObject _ =>
            ∃ nested, recur value = Ok nested ∧ stored = JObject nested
        | _ => stored = value
        end.
Proof.
  unfold sanitize_entry, key_ok.
  destruct (negb (isString (JString key)) || (str_length key =? 0)
            || (100 <? str_length key)); [done |].
  intros H. split; [done |].
  destruct value as [| | b | q | s | items | entries];
    try (injection H as <-; eauto; fail).
  all: change (bool_decide _ && _) with true in H; cbv iota in H.
  all: destruct (recur _) as [nested | e]; [| done].
  all: injection H as <-; eauto.
Qed.

Lemma sanitize_entry_key_ok recur key value sanitized :
  key_ok key = true →
  sanitize_entry recur key value sanitized
  = match value with
    | JString s => Ok (obj_set key (JString (sanitizeInput s)) sanitized)
    | JArray _ | JObject _ =>
        match recur value with
        | Err e => Err e
        | Ok nested => Ok (obj_set key (JObject nested) sanitized)
        end
    | _ => Ok (obj_set key value sanitized)
    end.
Proof.
  unfold sanitize_entry, key_ok. intros Hkey.
  apply negb_true_iff in Hkey. rewrite Hkey.
  by destruct value.
Qed.

Lemma stored_unchanged_string (s : jsstring) :
  sanitizeInput s = s → stored_unchanged (JString s).
Proof.
  intros Hfixed key sanitized Hkey.
  by rewrite sanitize_entry_key_ok, Hfixed.
Qed.

Lemma stored_unchanged_object (nested : JsRecord) :
  validateAndSanitizeObject (JObject nested) = Ok nested →
  stored_unchanged (JObject nested).
Proof.
  intros Hfixed key sanitized Hkey.
  by rewrite sanitize_entry_key_ok, Hfixed.
Qed.

Lemma stored_unchanged_primitive (value : JsValue) :
  match value with
  | JString _ | JArray _ | JObject _ => False
  | _ => True
  end →
  stored_unchanged value.
Proof.
  intros Hprim key sanitized Hkey.
  rewrite sanitize_entry_key_ok by done. by destruct value.
Qed.

(** One pass of the loop body keeps the shape of the record built so far. *)
Lemma sanitized_record_step key value (sanitized sanitized' : JsRecord) :
  idempotent_at value →
  sanitized_record sanitized →
  sanitize_entry validateAndSanitizeObject key value sanitized = Ok sanitized' →
  sanitized_record sanitized'.
Proof.
  intros Hidem [Hnodup Hall] Hstep.
  apply sanitize_entry_Ok in Hstep as [Hkey [stored [-> Hstored]]].
  unfold obj_set. destruct (decide (key = js "__proto__")) as [_ | Hproto]; [done |].
  split; [by apply obj_update_NoDup |].
  apply obj_update_Forall; [done |]. simpl. repeat split; [done .. |].
  destruct value as [| | b | q | s | items | entries]; subst;
    try (by apply stored_unchanged_primitive).
  - apply stored_unchanged_string, sanitizeInput_idempotent.
  - destruct Hstored as [nested [Hnested ->]].
    by apply stored_unchanged_object, Hidem.
  - destruct Hstored as [nested [Hnested ->]].
    by apply stored_unchanged_object, Hidem.
Qed.

Lemma sanitized_record_loop (entries sanitized result : JsRecord) :
  Forall (λ kv, idempotent_at kv.2) entries →
  sanitized_record sanitized →
  sanitize_entries validateAndSanitizeObject entries sanitized = Ok result →
  sanitized_record result.
Proof.
  intros Hentries. revert sanitized.
  induction Hentries as [|[key value] entries Hvalue _ IH];
    intros sanitized Hshape Hloop; simpl in Hloop.
  - by injection Hloop as <-.
  - destruct (sanitize_entry _ key value sanitized) as [sanitized' | e] eqn:Hstep;
      [| done].
    eapply IH; [| done]. by eapply sanitized_record_step.
Qed.

(** On a record of that shape the loop appends every entry as it is. *)
Lemma sanitize_entries_append (l sanitized : JsRecord) :
  NoDup (sanitized.*1 ++ l.*1) →
  Forall (λ kv, key_ok kv.1 = true ∧ kv.1 ≠ js "__proto__"
                ∧ stored_unchanged kv.2) l →
  sanitize_entries validateAndSanitizeObject l sanitized = Ok (sanitized ++ l).
Proof.
  intros Hnodup Hall. revert sanitized Hnodup.
  induction Hall as [|[key value] l (Hkey & Hproto & Hstored) _ IH];
    intros sanitized Hnodup; simpl in *.
  - by rewrite app_nil_r.
  - rewrite Hstored by done. unfold obj_set. rewrite decide_False by done.
    apply NoDup_app in Hnodup as H. destruct H as (_ & Hdisjoint & _).
    rewrite obj_update_fresh.
    + rewrite IH; [by rewrite <- app_assoc |].
      by rewrite fmap_app, <- app_assoc.
    + intros Hin. apply (Hdisjoint key Hin). by left.
Qed.

Lemma sanitized_record_fixed (l : JsRecord) :
  sanitized_record l →
  validateAndSanitizeObject (JObject l) = Ok l.
Proof.
  intros [Hnodup Hall]. simpl.
  by rewrite sanitize_entries_append.
Qed.

Lemma sanitized_record_nil : sanitized_record [].
Proof. split; [apply NoDup_nil_2 | apply Forall_nil_2]. Qed.

Lemma idempotent_at_every_value (value : JsValue) :
  idempotent_at value.
Proof.
  induction value as [| | b | q | s | items IH | entries IH] using JsValue_ind;
    intros nested Hnested; try done.
  - apply sanitized_record_fixed.
    rewrite validateAndSanitizeObject_eq in Hnested.
    eapply sanitized_record_loop; [| apply sanitized_record_nil | exact Hnested].
    simpl. generalize index_key as f. clear Hnested.
    induction IH as [|value items Hvalue _ IHitems]; intros f; [constructor |].
    rewrite imap_cons. constructor; [done |]. apply (IHitems (f ∘ S)).
  - apply sanitized_record_fixed.
    by eapply sanitized_record_loop; [| apply sanitized_record_nil |].
Qed.

(** The sanitizer leaves no array in its result. *)
Lemma sanitize_entries_no_array recur (entries sanitized result : JsRecord) :
  Forall (λ kv, ∀ items, kv.2 ≠ JArray items) sanitized →
  sanitize_entries recur entries sanitized = Ok result →
  Forall (λ kv, ∀ items, kv.2 ≠ JArray items) result.
Proof.
  revert sanitized.
  induction entries as [|[key value] entries IH]; intros sanitized Hacc Hloop;
    simpl in Hloop.
  - by injection Hloop as <-.
  - destruct (sanitize_entry recur key value sanitized) as [sanitized' | e] eqn:Hstep;
      [| done].
    apply (IH sanitized'); [| done].
    apply sanitize_entry_Ok in Hstep as [_ [stored [-> Hstored]]].
    unfold obj_set. destruct (decide _); [done |].
    apply obj_update_Forall; [done |]. simpl. intros items' ->.
    destruct value; try done; by destruct Hstored as [? [_ ?]].
Qed.

(** C5. Sanitization is idempotent: when [validateAndSanitizeObject x]
    succeeds with [v], [validateAndSanitizeObject v] succeeds with [v]
    again; and [sanitizeInput] is a fixed point on its own output. *)
Theorem validateAndSanitizeObject_idempotent (x : JsValue) (v : JsRecord)
    (Hx : validateAndSanitizeObject x = Ok v) :
  validateAndSanitizeObject (JObject v) = Ok v
  ∧ ∀ s, sanitizeInput (sanitizeInput s) = sanitizeInput s.
Proof.
  split.
  - by apply (idempotent_at_every_value x).
  - apply sanitizeInput_idempotent.
Qed.

Lemma validateAndSanitizeObject_idempotent_witness :
  validateAndSanitizeObject payload_with_control_characters
  = Ok [ (js "name", JString (js "TestName"));
         (js "user", JObject [ (js "bio", JString (js "Developer")) ]);
         (js "tags", JObject [ (js "0", JString (js "a")); (js "1", JNull) ]) ]
  ∧ validateAndSanitizeObject
      (JObject [ (js "name", JString (js "TestName"));
                 (js "user", JObject [ (js "bio", JString (js "Developer")) ]);
                 (js "tags", JObject [ (js "0", JString (js "a")); (js "1", JNull) ]) ])
    = Ok [ (js "name", JString (js "TestName"));
           (js "user", JObject [ (js "bio", JString (js "Developer")) ]);
           (js "tags", JObject [ (js "0", JString (js "a")); (js "1", JNull) ]) ].
Proof.
  split; [vm_compute; reflexivity |].
  apply (validateAndSanitizeObject_idempotent payload_with_control_characters).
  vm_compute; reflexivity.
Defined.

(** C3, on the code.  The test "should preserve non-string values"
    expects the array under [items] back; the code returns an object
    keyed by the indices, with the string elements sanitized, because the
    branch for nested objects also takes arrays: whatever the elements
    are, the value stored under [items] is the record the recursive call
    returns. *)
Theorem validateAndSanitizeObject_array_becomes_object :
  validateAndSanitizeObject payload_with_array
  = Ok [ (js "count", number 123);
         (js "active", JBoolean true);
         (js "items", JObject [ (js "0", number 1); (js "1", number 2);
                                (js "2", number 3) ]);
         (js "nullable", JNull) ]
  ∧ validateAndSanitizeObject
      (JObject [ (js "tags", JArray [JString (js "a" ++ [0x7F])]) ])
    = Ok [ (js "tags", JObject [ (js "0", JString (js "a")) ]) ]
  ∧ ∀ items,
      validateAndSanitizeObject (JObject [ (js "items", JArray items) ])
      = match validateAndSanitizeObject (JArray items) with
        | Ok nested => Ok [ (js "items", JObject nested) ]
        | Err e => Err e
        end.
Proof.
  split; [vm_compute; reflexivity |].
  split; [vm_compute; reflexivity |].
  intros items. cbn [validateAndSanitizeObject sanitize_entries].
  rewrite sanitize_entry_key_ok by reflexivity.
  cbn [validateAndSanitizeObject]. by destruct (sanitize_items _ _ _ _).
Qed.

(** No array is left in a result of the sanitizer, at any key. *)
Lemma validateAndSanitizeObject_no_array (obj : JsValue) (result : JsRecord) :
  validateAndSanitizeObject obj = Ok result →
  Forall (λ kv, ∀ items, kv.2 ≠ JArray items) result.
Proof.
  rewrite validateAndSanitizeObject_eq.
  destruct (negb _ || _); [done |].
  apply sanitize_entries_no_array. constructor.
Qed.

(** ** Classification *)

(** C1. For each of the five methods and both values of [hasResourceId]
    the classifier returns a [Result]: [GET] gives [READ] and [POST] gives
    [CREATE] whatever [hasResourceId] is; [PUT] and [PATCH] give [UPDATE],
    and [DELETE] gives [DELETE], when it is [true], and a failure carrying
    a [ValidationError] when it is [false]. *)
Theorem mapHttpMethodToCrudOperation_total (hasResourceId : bool) :
  mapHttpMethodToCrudOperation (js "GET") hasResourceId = Ok READ
  ∧ mapHttpMethodToCrudOperation (js "POST") hasResourceId = Ok CREATE
  ∧ (if hasResourceId
     then mapHttpMethodToCrudOperation (js "PUT") hasResourceId = Ok UPDATE
          ∧ mapHttpMethodToCrudOperation (js "PATCH") hasResourceId = Ok UPDATE
          ∧ mapHttpMethodToCrudOperation (js "DELETE") hasResourceId = Ok DELETE
     else ∃ e_put e_patch e_delete,
          mapHttpMethodToCrudOperation (js "PUT") hasResourceId = Err e_put
          ∧ mapHttpMethodToCrudOperation (js "PATCH") hasResourceId = Err e_patch
          ∧ mapHttpMethodToCrudOperation (js "DELETE") hasResourceId = Err e_delete
          ∧ instanceof e_put ValidationError_class = true
          ∧ instanceof e_patch ValidationError_class = true
          ∧ instanceof e_delete ValidationError_class = true).
Proof.
  destruct hasResourceId; repeat split.
  do 3 eexists. repeat split.
Qed.

(** ** Resource identifiers *)

Lemma first_candidate_app (p : Params) (before after : list jsstring)
    (name value : jsstring) :
  (∀ n, n ∈ before → nonempty_string (mjoin (obj_get p n)) = None) →
  nonempty_string (mjoin (obj_get p name)) = Some value →
  first_candidate p (before ++ name :: after) = Some value.
Proof.
  intros Hbefore Hname.
  induction before as [|n before IH]; simpl.
  - by rewrite Hname.
  - rewrite (Hbefore n) by left. apply IH.
    intros n' Hn'. apply Hbefore. by right.
Qed.

(** C8. The fixed candidates [id], [resourceId], [itemId], [entityId] are
    tried in that order before any scan of the entries: the first of them
    whose value is a non-empty string is returned, whatever the other
    entries are.  For the path parameters [{itemId: "A", id: "B"}] the
    result is ["B"]. *)
Theorem extractResourceId_candidates_first (event : Event.t) (p : Params)
    (before after : list jsstring) (name value : jsstring)
    (Hparams : Event.pathParameters event = Some p)
    (Horder : [js "id"; js "resourceId"; js "itemId"; js "entityId"]
              = before ++ name :: after)
    (Hbefore : ∀ n, n ∈ before → nonempty_string (mjoin (obj_get p n)) = None)
    (Hname : nonempty_string (mjoin (obj_get p name)) = Some value) :
  extractResourceId event = Some value
  ∧ extractResourceId
      (test_event (js "GET")
         (Some [(js "itemId", Some (js "A")); (js "id", Some (js "B"))]) None)
    = Some (js "B").
Proof.
  split; [| reflexivity].
  unfold extractResourceId, idParameterNames. rewrite Hparams, Horder.
  by rewrite (first_candidate_app p before after name value).
Qed.

Lemma extractResourceId_candidates_first_witness :
  extractResourceId
    (test_event (js "DELETE")
       (Some [(js "customId", Some (js "X")); (js "itemId", Some (js "A"));
              (js "id", Some []); (js "entityId", Some (js "E"))]) None)
  = Some (js "A").
Proof.
  refine (proj1 (extractResourceId_candidates_first
                   (test_event (js "DELETE")
                      (Some [(js "customId", Some (js "X"));
                             (js "itemId", Some (js "A"));
                             (js "id", Some []); (js "entityId", Some (js "E"))])
                      None)
                   [(js "customId", Some (js "X")); (js "itemId", Some (js "A"));
                    (js "id", Some []); (js "entityId", Some (js "E"))]
                   [js "id"; js "resourceId"] [js "entityId"] (js "itemId") (js "A")
                   eq_refl eq_refl _ eq_refl)).
  intros n Hn.
  apply elem_of_cons in Hn as [-> | Hn]; [reflexivity |].
  apply elem_of_cons in Hn as [-> | Hn]; [reflexivity |].
  by apply elem_of_nil in Hn.
Defined.

(** ** Validation errors *)

Lemma sanitize_entries_Err recur (entries sanitized : JsRecord) (e : JsError) :
  Forall (λ kv, ∀ e', recur kv.2 = Err e' → ∃ f v, e' = ValidationError f v) entries →
  sanitize_entries recur entries sanitized = Err e →
  ∃ f v, e = ValidationError f v.
Proof.
  intros Hentries. revert sanitized.
  induction Hentries as [|[key value] entries Hvalue _ IH]; intros sanitized Hloop;
    simpl in Hloop; [done |].
  destruct (sanitize_entry recur key value sanitized) as [sanitized' | e'] eqn:Hstep.
  { by apply (IH sanitized'). }
  injection Hloop as ->. unfold sanitize_entry in Hstep.
  destruct (negb _ || _ || _).
  { injection Hstep as <-. eauto. }
  destruct value as [| | b | q | s | items | entries']; try done.
  all: change (bool_decide _ && _) with true in Hstep; cbv iota in Hstep.
  all: destruct (recur _) as [nested | e''] eqn:Hrecur; [done |].
  all: injection Hstep as ->; by apply Hvalue.
Qed.

Lemma validateAndSanitizeObject_Err (obj : JsValue) (e : JsError) :
  validateAndSanitizeObject obj = Err e → ∃ f v, e = ValidationError f v.
Proof.
  revert e.
  induction obj as [| | b | q | s | items IH | entries IH] using JsValue_ind;
    intros e Hobj; try (injection Hobj as <-; eauto; fail).
  - rewrite validateAndSanitizeObject_eq in Hobj.
    eapply sanitize_entries_Err; [| exact Hobj].
    simpl. generalize index_key as f. clear Hobj.
    induction IH as [|value items Hvalue _ IHitems]; intros f; [constructor |].
    rewrite imap_cons. constructor; [done |]. apply (IHitems (f ∘ S)).
  - by eapply sanitize_entries_Err.
Qed.

Lemma mapHttpMethodToCrudOperation_Err method hasResourceId (e : JsError) :
  mapHttpMethodToCrudOperation method hasResourceId = Err e →
  error_class e = ValidationError_class →
  ∃ f v, e = ValidationError f v.
Proof.
  unfold mapHttpMethodToCrudOperation. intros Hmap Hclass.
  repeat case_decide; try done; destruct hasResourceId; try done;
    injection Hmap as <-; eauto; done.
Qed.

Lemma pipeline_error_ValidationError (e : JsError) :
  pipeline_error e →
  error_class e = ValidationError_class →
  ∃ f v, e = ValidationError f v.
Proof.
  intros [method hasResourceId e' Hmap | rt body e' Hparse | obj e' Hobj
         | rt event context e' Hcontext] Hclass.
  - by eapply mapHttpMethodToCrudOperation_Err.
  - unfold parseRequestBody in Hparse.
    destruct body as [[|c body] |]; try done.
    destruct (JSON_parse rt (c :: body)); [done |].
    injection Hparse as <-. eauto.
  - by eapply validateAndSanitizeObject_Err.
  - unfold createRequestContext in Hcontext.
    destruct (get_requestContext rt event) as [rc | t]; [| done].
    destruct (negb _).
    { injection Hcontext as <-. eauto. }
    destruct (mapHttpMethodToCrudOperation _ _) as [op | e''] eqn:Hmap; [done |].
    injection Hcontext as ->. by eapply mapHttpMethodToCrudOperation_Err.
Qed.

(** C9. The message of [new ValidationError(f, v)] is "Validation failed
    for field " followed by [f]; [v] is kept in the [value] property and
    the message is the same for every [v].  Every [ValidationError] that a
    pipeline function returns was built by that constructor, so its
    message is that text for its own field. *)
Theorem ValidationError_message_names_field_only (field : jsstring)
    (value : JsValue) (e : JsError)
    (Hproduced : pipeline_error e)
    (Hclass : error_class e = ValidationError_class) :
  error_message (ValidationError field value) = js "Validation failed for field " ++ field
  ∧ error_value (ValidationError field value) = Some value
  ∧ (∀ value', error_message (ValidationError field value')
               = error_message (ValidationError field value))
  ∧ ∃ f v, e = ValidationError f v
           ∧ error_value e = Some v
           ∧ error_message e = js "Validation failed for field " ++ f.
Proof.
  repeat split.
  destruct (pipeline_error_ValidationError e Hproduced Hclass) as [f [v ->]].
  by exists f, v.
Qed.

Lemma ValidationError_message_names_field_only_witness :
  ∃ f v,
    ValidationError (js "resourceId")
      (JString (js "Resource ID required for delete operations"))
    = ValidationError f v
    ∧ error_value (ValidationError (js "resourceId")
                     (JString (js "Resource ID required for delete operations")))
      = Some v
    ∧ error_message (ValidationError (js "resourceId")
                       (JString (js "Resource ID required for delete operations")))
      = js "Validation failed for field " ++ f.
Proof.
  refine (proj2 (proj2 (proj2
            (ValidationError_message_names_field_only (js "email")
               (JString (js "invalid@"))
               (ValidationError (js "resourceId")
                  (JString (js "Resource ID required for delete operations")))
               _ eq_refl)))).
  apply (error_of_mapHttpMethodToCrudOperation (js "DELETE") false).
  reflexivity.
Defined.

(** ** The handler *)

Lemma createApiResponse_headers rt statusCode body :
  headers (createApiResponse rt statusCode body ∅) = STANDARD_HEADERS.
Proof. unfold createApiResponse. simpl. apply (left_id_L ∅ (∪)). Qed.

Lemma errorResponse_run rt (error : JsError + jsstring) statusCode st :
  (errorResponse rt error statusCode st).1
  = Return (createApiResponse rt (default 500%Z statusCode)
              (error_body
                 match error with inl e => error_name e | inr _ => js "Error" end
                 match error with inl e => error_message e | inr s => s end)
              ∅).
Proof. reflexivity. Qed.

Lemma errorResponse_always_standard rt error statusCode :
  always_standard (errorResponse rt error statusCode).
Proof.
  intros st. eexists. split; [apply errorResponse_run |].
  apply createApiResponse_headers.
Qed.

Lemma always_returns_standard (m : M ApiResponse) :
  always_standard m → returns_standard m.
Proof. intros Hm st. by destruct (Hm st) as [response [-> ?]]. Qed.

Lemma bind_returns_standard {A} (m : M A) (f : A → M ApiResponse) :
  (∀ a, returns_standard (f a)) → returns_standard (m ≫= f).
Proof.
  intros Hf st. unfold mbind, M_bind.
  destruct (m st) as [[a | t] st']; [apply Hf | done].
Qed.

Lemma handler_dispatch_returns_standard rt requestContext requestBody :
  returns_standard (handler_dispatch rt requestContext requestBody).
Proof.
  unfold handler_dispatch.
  do 2 (apply bind_returns_standard; intros ?).
  intros st. apply createApiResponse_headers.
Qed.

Lemma handler_try_returns_standard rt event context :
  returns_standard (handler_try rt event context).
Proof.
  unfold handler_try. apply bind_returns_standard.
  intros [requestContext | error];
    [| apply always_returns_standard, errorResponse_always_standard].
  apply bind_returns_standard. intros _.
  destruct (hasBody event); [| apply handler_dispatch_returns_standard].
  destruct (parseRequestBody _ _) as [parsed | error];
    [| apply always_returns_standard, errorResponse_always_standard].
  destruct (validateAndSanitizeObject parsed) as [requestBody | error];
    [| apply always_returns_standard, errorResponse_always_standard].
  apply handler_dispatch_returns_standard.
Qed.

Lemma emit_then_always_standard (entry : LogEntry) (m : M ApiResponse) :
  always_standard m → always_standard (emit entry;; m).
Proof. intros Hm st. apply Hm. Qed.

Lemma handler_catch_always_standard rt (error : Thrown) :
  always_standard (handler_catch rt error).
Proof.
  destruct error as [e | v]; simpl.
  - repeat (destruct (instanceof e _);
            [apply errorResponse_always_standard |]).
    apply emit_then_always_standard, errorResponse_always_standard.
  - apply emit_then_always_standard, errorResponse_always_standard.
Qed.

(** The status the [catch] block answers with, by the class of what was
    thrown. *)
Lemma handler_catch_status rt (error : Thrown) (st : State) :
  ∃ response,
    (handler_catch rt error st).1 = Return response
    ∧ statusCode response
      = match error with
        | ThrownError e =>
            match error_class e with
            | ValidationError_class => 400%Z
            | AuthorizationError_class => 403%Z
            | NotFoundError_class => 404%Z
            | _ => 500%Z
            end
        | ThrownValue _ => 500%Z
        end.
Proof.
  destruct error as [[[] name message field value] | v];
    eexists; (split; [reflexivity |]); reflexivity.
Qed.

Lemma try_catch_finally_always_standard (body : M ApiResponse)
    (catch : Thrown → M ApiResponse) (finalizer : M unit) :
  returns_standard body →
  (∀ t, always_standard (catch t)) →
  (∀ st, ∃ st', finalizer st = (Return (), st')) →
  always_standard (try_catch_finally body catch finalizer).
Proof.
  intros Hbody Hcatch Hfinal st. unfold try_catch_finally.
  specialize (Hbody st).
  destruct (body st) as [[response | t] st']; simpl in *.
  - destruct (Hfinal st') as [st'' ->]. eauto.
  - destruct (Hcatch t st') as [response [Hresponse Hheaders]].
    destruct (Hfinal (catch t st').2) as [st'' ->]. eauto.
Qed.

Lemma handler_always_standard rt event context :
  always_standard (handler rt event context).
Proof.
  unfold handler. apply emit_then_always_standard.
  apply try_catch_finally_always_standard.
  - apply handler_try_returns_standard.
  - apply handler_catch_always_standard.
  - intros st. destruct (segment rt); eauto.
Qed.

(** C7. Every envelope the handler returns, and it returns one on every
    path, carries the seven security headers with their fixed values; so
    does the envelope the [catch] block builds for any thrown value,
    which is where the 403 and 404 exits are. *)
Theorem handler_security_headers (rt : Runtime) (event : Event.t)
    (context : Context) (st : State) :
  (∃ response,
     (handler rt event context st).1 = Return response
     ∧ headers response !! js "Content-Type" = Some (js "application/json")
     ∧ headers response !! js "X-Content-Type-Options" = Some (js "nosniff")
     ∧ headers response !! js "X-Frame-Options" = Some (js "DENY")
     ∧ headers response !! js "X-XSS-Protection" = Some (js "1; mode=block")
     ∧ headers response !! js "Strict-Transport-Security"
       = Some (js "max-age=31536000; includeSubDomains")
     ∧ headers response !! js "Cache-Control"
       = Some (js "no-store, no-cache, must-revalidate")
     ∧ headers response !! js "Pragma" = Some (js "no-cache"))
  ∧ ∀ (thrown : Thrown) (st' : State),
      ∃ response,
        (handler_catch rt thrown st').1 = Return response
        ∧ headers response = STANDARD_HEADERS.
Proof.
  split; [| intros thrown st'; apply handler_catch_always_standard].
  destruct (handler_always_standard rt event context st)
    as [response [Hresponse Hheaders]].
  exists response. rewrite Hheaders.
  split; [done |].
  repeat apply conj; vm_compute; reflexivity.
Qed.

Lemma try_catch_finally_Return {A} (body : M A) (catch : Thrown → M A)
    (finalizer : M unit) (st : State) (a : A) :
  (body st).1 = Return a →
  (∀ st, ∃ st', finalizer st = (Return (), st')) →
  (try_catch_finally body catch finalizer st).1 = Return a.
Proof.
  intros Hbody Hfinal. unfold try_catch_finally.
  destruct (body st) as [o st']. simpl in Hbody. subst o.
  by destruct (Hfinal (Return a, st').2) as [st'' ->].
Qed.

(** A response returned by the [try] block is the handler's response. *)
Lemma handler_try_Return rt event context (st : State) (response : ApiResponse) :
  (∀ st, (handler_try rt event context st).1 = Return response) →
  (handler rt event context st).1 = Return response.
Proof.
  intros Htry. unfold handler, mbind, M_bind, emit.
  apply try_catch_finally_Return; [apply Htry |].
  intros st'. destruct (segment rt); eauto.
Qed.

(** A failure of [createRequestContext] is answered from the first
    [return] of the [try] block, with status 400. *)
Lemma handler_context_failure rt event context (st : State) (e : JsError) :
  createRequestContext rt event context = Return (Err e) →
  (handler rt event context st).1
  = Return (createApiResponse rt 400
              (error_body (error_name e) (error_message e)) ∅).
Proof.
  intros Hcontext. apply handler_try_Return. intros st'.
  unfold handler_try, lift, mbind, M_bind. rewrite Hcontext.
  apply errorResponse_run.
Qed.

Lemma createApiResponse_no_extra_headers rt statusCode body :
  createApiResponse rt statusCode body ∅
  = {| statusCode := statusCode;
       headers := STANDARD_HEADERS;
       body := JSON_stringify rt body 0 |}.
Proof. unfold createApiResponse. by rewrite (left_id_L ∅ (∪)). Qed.

(** C4, on the code.  For the method "CONNECT" the handler answers with
    status 400 and the standard headers; the [error.message] of the body
    is "Validation failed for field method", which does not contain
    "Invalid HTTP method": that text is the [value] of the error. *)
Theorem handler_CONNECT_message (rt : Runtime) (rc : Event.RequestContext)
    (headers' : Params) (query pathParameters : option Params)
    (body' : option jsstring) (context : Context) (st : State) :
  (handler rt
     {| Event.requestContext := Some (with_method (js "CONNECT") rc);
        Event.headers := headers';
        Event.queryStringParameters := query;
        Event.pathParameters := pathParameters;
        Event.body := body' |}
     context st).1
  = Return {| statusCode := 400;
              headers := STANDARD_HEADERS;
              body := JSON_stringify rt
                        (error_body (js "ValidationError")
                           (js "Validation failed for field method")) 0 |}
  ∧ includes (js "Validation failed for field method") (js "Invalid HTTP method")
    = false
  ∧ createRequestContext rt (test_event (js "CONNECT") None None) context
    = Return (Err (ValidationError (js "method")
                     (JString (js "Invalid HTTP method: CONNECT")))).
Proof.
  split; [| split; reflexivity].
  rewrite (handler_context_failure rt _ context st
             (ValidationError (js "method")
                (JString (js "Invalid HTTP method: CONNECT")))) by done.
  apply f_equal, createApiResponse_no_extra_headers.
Qed.

(** C2, on the code.  Without a resource id, [PUT] and [PATCH] fail with a
    [ValidationError] of field ["resourceId"] whose message is "Validation
    failed for field resourceId"; "Resource ID required for update
    operations" is the [value] of the error.  A [PUT] request without path
    parameters is answered with status 400 and that message, which does
    not contain "Resource ID required". *)
Theorem update_without_id_message (rt : Runtime) (rc : Event.RequestContext)
    (headers' : Params) (query : option Params) (body' : option jsstring)
    (context : Context) (st : State) :
  mapHttpMethodToCrudOperation (js "PUT") false
  = Err (ValidationError (js "resourceId")
           (JString (js "Resource ID required for update operations")))
  ∧ mapHttpMethodToCrudOperation (js "PATCH") false
    = Err (ValidationError (js "resourceId")
             (JString (js "Resource ID required for update operations")))
  ∧ error_message (ValidationError (js "resourceId")
                     (JString (js "Resource ID required for update operations")))
    = js "Validation failed for field resourceId"
  ∧ includes (js "Validation failed for field resourceId")
      (js "Resource ID required") = false
  ∧ (handler rt
       {| Event.requestContext := Some (with_method (js "PUT") rc);
          Event.headers := headers';
          Event.queryStringParameters := query;
          Event.pathParameters := None;
          Event.body := body' |}
       context st).1
    = Return {| statusCode := 400;
                headers := STANDARD_HEADERS;
                body := JSON_stringify rt
                          (error_body (js "ValidationError")
                             (js "Validation failed for field resourceId")) 0 |}.
Proof.
  do 4 (split; [reflexivity |]).
  rewrite (handler_context_failure rt _ context st
             (ValidationError (js "resourceId")
                (JString (js "Resource ID required for update operations"))))
    by done.
  apply f_equal, createApiResponse_no_extra_headers.
Qed.

(** ** Empty and absent bodies *)

Lemma handler_try_empty_body rt parse event context st :
  handler_try (with_JSON_parse parse rt) (with_body (Some []) event) context st
  = handler_try rt (with_body None event) context st.
Proof.
  destruct event as [[rc |] hdrs query pathParameters body0]; [| reflexivity].
  unfold handler_try, createRequestContext, get_requestContext, lift, mbind, M_bind.
  change (extractResourceId (with_body (Some []) ?e))
    with (extractResourceId (with_body None e)).
  unfold with_body.
  cbn [Event.requestContext Event.headers Event.queryStringParameters
       Event.pathParameters Event.body].
  destruct (isValidHttpMethod _); [| reflexivity].
  cbn [negb]. cbv zeta.
  destruct (mapHttpMethodToCrudOperation _ _) as [op | e]; [| reflexivity].
  destruct op; reflexivity.
Qed.

(** With an empty body the handler does what it does with no body, log
    and response alike, whatever the parser of the host is. *)
Lemma handler_empty_body rt parse event context st :
  handler (with_JSON_parse parse rt) (with_body (Some []) event) context st
  = handler rt (with_body None event) context st.
Proof.
  unfold handler, mbind, M_bind, emit, try_catch_finally.
  by rewrite handler_try_empty_body.
Qed.

Lemma createRequestContext_Ok rt event context requestContext :
  createRequestContext rt event context = Return (Ok requestContext) →
  ∃ rc op,
    Event.requestContext event = Some rc
    ∧ requestContext = {| event := event; context := context; operation := op;
                          resourceId := extractResourceId event |}.
Proof.
  unfold createRequestContext, get_requestContext.
  destruct (Event.requestContext event) as [rc |]; [| done].
  destruct (negb _); [done |]. cbv zeta.
  destruct (mapHttpMethodToCrudOperation _ _) as [op | e]; [| done].
  intros [= <-]. eauto.
Qed.

(** The success envelope of a request, read at clock [n]. *)
Lemma handler_without_body_success rt ev context st requestContext :
  createRequestContext rt ev context = Return (Ok requestContext) →
  hasBody ev = false →
  (handler rt ev context st).1
  = Return
      {| statusCode := 200;
         headers := STANDARD_HEADERS;
         body :=
           JSON_stringify rt
             (JObject
                [ (js "success", JBoolean true);
                  (js "data",
                   JObject
                     [ (js "message",
                        JString (CrudOperation_string (operation requestContext)
                                 ++ js " operation logged successfully"));
                       (js "operation",
                        JString (CrudOperation_string (operation requestContext)));
                       (js "resourceId",
                        string_or_undefined (resourceId requestContext));
                       (js "timestamp",
                        JString (Date_toISOString rt (S (clock st)))) ]) ]) 0 |}.
Proof.
  intros Hcontext Hbody.
  destruct (createRequestContext_Ok _ _ _ _ Hcontext) as (rc & op & Hrc & ->).
  unfold handler, mbind, M_bind, emit.
  apply try_catch_finally_Return; [| intros st'; destruct (segment rt); eauto].
  unfold handler_try, lift, mbind, M_bind. rewrite Hcontext, Hbody.
  unfold logRequest, handler_dispatch, handleCreate, handleRead, handleUpdate,
    handleDelete, log_request_lines, log_request_body, log_headers,
    get_requestContext, lift, mbind, M_bind, emit, now.
  cbn [event operation resourceId]. rewrite Hrc.
  rewrite <- createApiResponse_no_extra_headers.
  destruct op; cbv beta iota; try reflexivity.
  by destruct (extractResourceId ev) as [[|c id] |],
       (Event.queryStringParameters ev).
Qed.

(** C10. An event whose body is the empty string is handled like an event
    with no body: the parser is not consulted, log and response are those
    of the bodiless request, which for a request that passes
    classification is the success envelope with status 200; and
    [parseRequestBody] maps an absent or empty body to the empty mapping. *)
Theorem empty_body_same_as_absent (rt : Runtime)
    (parse : jsstring → Outcome JsValue) (event : Event.t) (context : Context)
    (st : State) (requestContext : RequestContext)
    (Hcontext : createRequestContext rt (with_body (Some []) event) context
                = Return (Ok requestContext)) :
  handler (with_JSON_parse parse rt) (with_body (Some []) event) context st
  = handler rt (with_body None event) context st
  ∧ (∃ response,
       (handler rt (with_body (Some []) event) context st).1 = Return response
       ∧ statusCode response = 200%Z
       ∧ headers response = STANDARD_HEADERS
       ∧ body response
         = JSON_stringify rt
             (JObject
                [ (js "success", JBoolean true);
                  (js "data",
                   JObject
                     [ (js "message",
                        JString (CrudOperation_string (operation requestContext)
                                 ++ js " operation logged successfully"));
                       (js "operation",
                        JString (CrudOperation_string (operation requestContext)));
                       (js "resourceId",
                        string_or_undefined (resourceId requestContext));
                       (js "timestamp",
                        JString (Date_toISOString rt (S (clock st)))) ]) ]) 0)
  ∧ parseRequestBody rt None = Ok (JObject [])
  ∧ parseRequestBody rt (Some []) = Ok (JObject []).
Proof.
  split; [apply handler_empty_body |].
  split; [| by split].
  eexists. split; [by apply (handler_without_body_success _ _ _ _ requestContext) |].
  by repeat split.
Qed.

Lemma empty_body_same_as_absent_witness :
  handler
    (with_JSON_parse (λ _, Return (JString (js "not an object"))) test_runtime)
    (with_body (Some []) (test_event (js "POST") None None))
    test_context initial_state
  = handler test_runtime (with_body None (test_event (js "POST") None None))
      test_context initial_state.
Proof.
  refine (proj1 (empty_body_same_as_absent test_runtime _
                   (test_event (js "POST") None None) test_context initial_state
                   {| event := with_body (Some []) (test_event (js "POST") None None);
                      context := test_context;
                      operation := CREATE;
                      resourceId := None |}
                   _)).
  vm_compute. reflexivity.
Defined.

(** ** The repository's unit tests, on the model *)

Example test_sanitizeInput_removes_control_characters :
  sanitizeInput (js "Hello" ++ [0] ++ js "World" ++ [0x1F; 0x7F] ++ js "Test" ++ [0x9F])
  = js "HelloWorldTest".
Proof. vm_compute. reflexivity. Qed.

Example test_sanitizeInput_limits_length :
  str_length (sanitizeInput (replicate (N.to_nat 15000) 97)) = 10000.
Proof. vm_compute. reflexivity. Qed.

Example test_isValidHttpMethod :
  Forall (λ m, isValidHttpMethod (JString m) = true) HTTP_METHODS
  ∧ Forall (λ v, isValidHttpMethod v = false)
      [ JString (js "get"); JString (js "OPTIONS"); JString (js "HEAD");
        JString (js "CONNECT"); JString (js "TRACE"); JString [];
        number 123; JNull; JUndefined ].
Proof. split; repeat constructor. Qed.

Example test_extractResourceId :
  extractResourceId (test_event (js "GET") (Some [(js "id", Some (js "123"))]) None)
  = Some (js "123")
  ∧ extractResourceId
      (test_event (js "GET") (Some [(js "customIdField", Some (js "xyz"))]) None)
    = Some (js "xyz")
  ∧ extractResourceId (test_event (js "GET") None None) = None
  ∧ extractResourceId
      (test_event (js "GET")
         (Some [(js "name", Some (js "test")); (js "type", Some (js "example"))]) None)
    = None
  ∧ extractResourceId (test_event (js "GET") (Some [(js "id", Some [])]) None) = None.
Proof. repeat split. Qed.

Example test_createRequestContext_GET :
  createRequestContext test_runtime (test_event (js "GET") (Some []) None) test_context
  = Return (Ok {| event := test_event (js "GET") (Some []) None;
                  context := test_context;
                  operation := READ;
                  resourceId := None |}).
Proof. reflexivity. Qed.

Example test_validateAndSanitizeObject_nested :
  validateAndSanitizeObject
    (JObject
       [ (js "user",
          JObject [ (js "name", JString (js "John" ++ [0x1F] ++ js "Doe"));
                    (js "profile",
                     JObject [ (js "bio", JString (js "Developer" ++ [0])) ]) ]) ])
  = Ok [ (js "user",
          JObject [ (js "name", JString (js "JohnDoe"));
                    (js "profile", JObject [ (js "bio", JString (js "Developer")) ]) ]) ].
Proof. vm_compute. reflexivity. Qed.

Example test_validateAndSanitizeObject_rejects :
  validateAndSanitizeObject (JString (js "not an object"))
  = Err (ValidationError (js "object") (JString (js "Expected an object")))
  ∧ validateAndSanitizeObject JNull
    = Err (ValidationError (js "object") (JString (js "Expected an object")))
  ∧ validateAndSanitizeObject (JObject [ ([], JString (js "empty key")) ])
    = Err (ValidationError (js "key") (JString (js "Invalid key: ")))
  ∧ validateAndSanitizeObject (JObject [ (replicate 101 120, JString (js "value")) ])
    = Err (ValidationError (js "key")
             (JString (js "Invalid key: " ++ replicate 101 120))).
Proof. repeat split. Qed.

(** An own property [__proto__] of a parsed payload is not copied. *)
Example validateAndSanitizeObject_proto :
  validateAndSanitizeObject
    (JObject [ (js "__proto__", JObject [ (js "admin", JBoolean true) ]);
               (js "name", JString (js "x")) ])
  = Ok [ (js "name", JString (js "x")) ].
Proof. vm_compute. reflexivity. Qed.

Example test_handler_statuses :
  statusCode <$> (match (handler test_runtime (test_event (js "GET") None None)
                           test_context initial_state).1
                  with Return r => Some r | Throw _ => None end) = Some 200%Z
  ∧ statusCode <$> (match (handler test_runtime
                             (test_event (js "DELETE") (Some []) None)
                             test_context initial_state).1
                    with Return r => Some r | Throw _ => None end) = Some 400%Z
  ∧ statusCode <$> (match (handler test_runtime
                             (test_event (js "POST") None (Some (js "{ invalid json }")))
                             test_context initial_state).1
                    with Return r => Some r | Throw _ => None end) = Some 400%Z
  ∧ statusCode <$> (match (handler test_runtime
                             {| Event.requestContext := None;
                                Event.headers := [];
                                Event.queryStringParameters := None;
                                Event.pathParameters := None;
                                Event.body := None |}
                             test_context initial_state).1
                    with Return r => Some r | Throw _ => None end) = Some 500%Z.
Proof. repeat split. Qed.

(** * Further properties *)

(** ** The string sanitizer, further *)

Lemma clean_string_spec (s : jsstring) :
  clean_string s = true
  ↔ Forall (λ c, is_control c = false) s ∧ str_length s ≤ MAX_INPUT_LENGTH.
Proof.
  unfold clean_string, MAX_INPUT_LENGTH.
  rewrite andb_true_iff, N.leb_le, forallb_forall, Forall_forall.
  split; intros [Hclean Hlen]; (split; [| done]); intros c Hc.
  - apply negb_true_iff, Hclean. by apply list_elem_of_In.
  - apply negb_true_iff, Hclean. by apply list_elem_of_In.
Qed.

(** X1. The sanitizer only deletes: its result is a subsequence of the
    input, characters in their original order, and never longer. *)
Theorem sanitizeInput_subsequence (s : jsstring) :
  sanitizeInput s `sublist_of` s
  ∧ str_length (sanitizeInput s) ≤ str_length s.
Proof.
  assert (sanitizeInput s `sublist_of` s) as Hsub.
  { destruct (sanitizeInput_cases s) as [-> | [-> _]].
    - apply sublist_filter.
    - etrans; [apply sublist_take | apply sublist_filter]. }
  split; [done |].
  apply sublist_length in Hsub. unfold str_length. lia.
Qed.

(** X2. The strings the sanitizer leaves unchanged are exactly those with
    no control character and at most 10000 code units. *)
Theorem sanitizeInput_fixed_points (s : jsstring) :
  sanitizeInput s = s ↔ clean_string s = true.
Proof.
  rewrite clean_string_spec. split.
  - intros <-. split; [apply sanitizeInput_no_control | apply sanitizeInput_length].
  - intros [Hclean Hlen]. by apply sanitizeInput_fixed.
Qed.

Lemma sanitizeInput_fixed_points_witness :
  sanitizeInput (js "Normal string with spaces and punctuation!")
  = js "Normal string with spaces and punctuation!".
Proof.
  apply (proj2 (sanitizeInput_fixed_points
                  (js "Normal string with spaces and punctuation!"))).
  vm_compute. reflexivity.
Defined.

(** When the cleaned text fits, nothing but control characters is lost:
    the result is the input without them. *)
Lemma sanitizeInput_short (s : jsstring) :
  str_length s ≤ MAX_INPUT_LENGTH →
  sanitizeInput s = filter (λ c, is_control c = false) s.
Proof.
  intros Hlen. destruct (sanitizeInput_cases s) as [-> | [_ Hlong]]; [done |].
  pose proof (length_filter (λ c, is_control c = false) s).
  unfold str_length in *. lia.
Qed.

(** X3. On an input of at most 10000 code units the sanitizer removes the
    control characters and nothing else, so it distributes over
    concatenation. *)
Theorem sanitizeInput_app (s1 s2 : jsstring)
    (Hlen : str_length (s1 ++ s2) ≤ 10000) :
  sanitizeInput (s1 ++ s2) = sanitizeInput s1 ++ sanitizeInput s2
  ∧ ∀ c, c ∈ sanitizeInput (s1 ++ s2) ↔ c ∈ s1 ++ s2 ∧ is_control c = false.
Proof.
  assert (str_length s1 ≤ MAX_INPUT_LENGTH ∧ str_length s2 ≤ MAX_INPUT_LENGTH)
    as [H1 H2].
  { unfold str_length, MAX_INPUT_LENGTH in *. rewrite length_app in Hlen. lia. }
  rewrite !sanitizeInput_short by done. split.
  - apply filter_app.
  - intros c. rewrite list_elem_of_filter. tauto.
Qed.

Lemma sanitizeInput_app_witness :
  sanitizeInput (js "Test" ++ [0] ++ js "Name")
  = sanitizeInput (js "Test") ++ sanitizeInput ([0] ++ js "Name").
Proof.
  apply (sanitizeInput_app (js "Test") ([0] ++ js "Name")).
  vm_compute. discriminate.
Defined.

(** ** The object sanitizer, further *)

Lemma Forall_array_entries (P : JsValue → Prop) (items : list JsValue)
    (f : nat → jsstring) :
  Forall P items → Forall (λ kv, P kv.2) (imap (λ i x, (f i, x)) items).
Proof.
  intros Hitems. revert f.
  induction Hitems as [|value items Hvalue _ IH]; intros f; [constructor |].
  rewrite imap_cons. constructor; [done |]. apply (IH (f ∘ S)).
Qed.


(** What the loop body stores is the stored form of the value. *)
Lemma sanitize_entry_stored key value sanitized sanitized' :
  sanitize_entry validateAndSanitizeObject key value sanitized = Ok sanitized' →
  key_ok key = true
  ∧ ∃ stored, stored_form value = Some stored
              ∧ sanitized' = obj_set key stored sanitized.
Proof.
  intros Hstep. apply sanitize_entry_Ok in Hstep as [Hkey [stored [-> Hstored]]].
  split; [done |]. exists stored. split; [| done].
  destruct value as [| | b | q | s | items | entries]; try (by subst).
  - destruct Hstored as [nested [Hnested ->]]. unfold stored_form. by rewrite Hnested.
  - destruct Hstored as [nested [Hnested ->]]. unfold stored_form. by rewrite Hnested.
Qed.

Lemma stored_form_deep_sanitized (value stored : JsValue) :
  (∀ nested, validateAndSanitizeObject value = Ok nested →
             deep_sanitized (JObject nested) = true) →
  stored_form value = Some stored →
  deep_sanitized stored = true.
Proof.
  intros IH Hstored.
  destruct value as [| | b | q | s | items | entries];
    unfold stored_form in Hstored; try (by injection Hstored as <-).
  - injection Hstored as <-. change (clean_string (sanitizeInput s) = true).
    apply clean_string_spec.
    split; [apply sanitizeInput_no_control | apply sanitizeInput_length].
  - destruct (validateAndSanitizeObject (JArray items)) as [nested |] eqn:Hnested;
      [| done].
    injection Hstored as <-. by apply IH.
  - destruct (validateAndSanitizeObject (JObject entries)) as [nested |] eqn:Hnested;
      [| done].
    injection Hstored as <-. by apply IH.
Qed.

Lemma sanitize_entries_deep_sanitized (entries sanitized result : JsRecord) :
  Forall (λ kv, ∀ nested, validateAndSanitizeObject kv.2 = Ok nested →
                          deep_sanitized (JObject nested) = true) entries →
  Forall (λ kv, key_ok kv.1 && deep_sanitized kv.2 = true) sanitized →
  sanitize_entries validateAndSanitizeObject entries sanitized = Ok result →
  Forall (λ kv, key_ok kv.1 && deep_sanitized kv.2 = true) result.
Proof.
  intros Hentries. revert sanitized.
  induction Hentries as [|[key value] entries Hvalue _ IH];
    intros sanitized Hacc Hloop; simpl in Hloop.
  - by injection Hloop as <-.
  - destruct (sanitize_entry _ key value sanitized) as [sanitized' | e] eqn:Hstep;
      [| done].
    apply (IH sanitized'); [| done].
    apply sanitize_entry_stored in Hstep as (Hkey & stored & Hstored & ->).
    unfold obj_set. destruct (decide _); [done |].
    apply obj_update_Forall; [done |]. simpl. rewrite Hkey. simpl.
    by eapply stored_form_deep_sanitized.
Qed.

(** X4. In every result of the object sanitizer, at every depth, each key
    has between 1 and 100 code units, each string is free of control
    characters and at most 10000 code units long, and there is no array. *)
Theorem validateAndSanitizeObject_deep (obj : JsValue) (result : JsRecord)
    (Hobj : validateAndSanitizeObject obj = Ok result) :
  deep_sanitized (JObject result) = true.
Proof.
  revert result Hobj.
  induction obj as [| | b | q | s | items IH | entries IH] using JsValue_ind;
    intros result Hobj; try done.
  - rewrite validateAndSanitizeObject_eq in Hobj.
    apply forallb_forall. intros kv Hkv. apply list_elem_of_In in Hkv. revert kv Hkv.
    apply Forall_forall.
    eapply sanitize_entries_deep_sanitized; [| constructor | exact Hobj].
    exact (Forall_array_entries _ items index_key IH).
  - apply forallb_forall. intros kv Hkv. apply list_elem_of_In in Hkv. revert kv Hkv.
    apply Forall_forall.
    by eapply sanitize_entries_deep_sanitized; [| constructor |].
Qed.

Lemma validateAndSanitizeObject_deep_witness :
  deep_sanitized
    (JObject
       [ (js "name", JString (js "TestName"));
         (js "user", JObject [ (js "bio", JString (js "Developer")) ]);
         (js "tags", JObject [ (js "0", JString (js "a")); (js "1", JNull) ]) ])
  = true.
Proof.
  apply (validateAndSanitizeObject_deep payload_with_control_characters).
  vm_compute. reflexivity.
Defined.







Section object_lookup.
Context {V : Type}.
Implicit Types (o : list (jsstring * V)) (key k : jsstring) (v : V).

Lemma obj_get_None o k : obj_get o k = None ↔ k ∉ o.*1.
Proof.
  induction o as [|[k' w] o IH]; simpl.
  - split; [intros _; apply not_elem_of_nil | done].
  - rewrite not_elem_of_cons. destruct (decide (k' = k)) as [-> | Hne].
    + split; [done | by intros [? _]].
    + rewrite IH. split; [by split | by intros [_ ?]].
Qed.

Lemma obj_get_update key v o k :
  obj_get (obj_update key v o) k
  = if decide (key = k) then Some v else obj_get o k.
Proof.
  induction o as [|[k' w] o IH]; simpl.
  - by destruct (decide (key = k)).
  - destruct (decide (k' = key)) as [-> | Hne]; simpl.
    + by destruct (decide (key = k)).
    + rewrite IH. destruct (decide (k' = k)) as [-> | Hne'];
        [by rewrite decide_False by done | done].
Qed.
End object_lookup.

Lemma sanitize_entries_mirror (entries sanitized result : JsRecord) :
  NoDup (sanitized.*1 ++ entries.*1) →
  sanitize_entries validateAndSanitizeObject entries sanitized = Ok result →
  result.*1 = sanitized.*1 ++ filter (λ k, k ≠ js "__proto__") entries.*1
  ∧ ∀ key, key ≠ js "__proto__" →
      obj_get result key
      = match obj_get entries key with
        | Some value => stored_form value
        | None => obj_get sanitized key
        end.
Proof.
  revert sanitized.
  induction entries as [|[k value] entries IH]; intros sanitized Hnodup Hloop;
    simpl in Hloop.
  { injection Hloop as <-. by rewrite app_nil_r. }
  destruct (sanitize_entry _ k value sanitized) as [sanitized' | e] eqn:Hstep;
    [| done].
  apply sanitize_entry_stored in Hstep as (Hkey & stored & Hstored & ->).
  rewrite fmap_cons in Hnodup. simpl in Hnodup.
  apply NoDup_app in Hnodup as Hparts. destruct Hparts as (Hacc & Hdisjoint & Hrest).
  apply NoDup_cons in Hrest as [Hfresh Hrest].
  assert (k ∉ sanitized.*1) as Hnew.
  { intros Hin. apply (Hdisjoint k Hin). by left. }
  unfold obj_set in *. rewrite fmap_cons. simpl.
  destruct (decide (k = js "__proto__")) as [Hproto | Hproto].
  - rewrite filter_cons_False by (by intros ?).
    destruct (IH sanitized) as [Hkeys Hvalues]; [| done |].
    { apply NoDup_app. repeat split; [done | | done].
      intros k' Hin Hin'. apply (Hdisjoint k' Hin). by right. }
    split; [done |]. intros key Hne. rewrite Hvalues by done.
    by rewrite decide_False by congruence.
  - rewrite filter_cons_True by done.
    destruct (IH (obj_update k stored sanitized)) as [Hkeys Hvalues]; [| done |].
    { rewrite obj_update_fresh, fmap_app, <- app_assoc by done. exact Hnodup. }
    split.
    + rewrite Hkeys, obj_update_fresh, fmap_app, <- app_assoc by done. done.
    + intros key Hne. rewrite Hvalues by done.
      destruct (decide (k = key)) as [-> | Hne'].
      * apply obj_get_None in Hfresh. rewrite Hfresh.
        by rewrite obj_get_update, decide_True.
      * destruct (obj_get entries key); [done |].
        by rewrite obj_get_update, decide_False.
Qed.

(** X7. The result mirrors a JSON object: it has the keys of the input in
    the order of the input, an own [__proto__] key left out, and under
    each of them the stored form of the input's value, which is the
    sanitized text for a string, the sanitized record for a nested object
    or array, and the value itself for a number, a boolean and null. *)
Theorem validateAndSanitizeObject_mirror (entries result : JsRecord)
    (Hkeys : NoDup entries.*1)
    (Hobj : validateAndSanitizeObject (JObject entries) = Ok result) :
  result.*1 = filter (λ k, k ≠ js "__proto__") entries.*1
  ∧ ∀ key, key ≠ js "__proto__" →
      obj_get result key = obj_get entries key ≫= stored_form.
Proof.
  destruct (sanitize_entries_mirror entries [] result) as [Hresult Hvalues];
    [done | done |].
  split; [done |]. intros key Hne. rewrite Hvalues by done.
  by destruct (obj_get entries key).
Qed.

Lemma validateAndSanitizeObject_mirror_witness :
  obj_get
    [ (js "name", JString (js "TestName"));
      (js "user", JObject [ (js "bio", JString (js "Developer")) ]);
      (js "tags", JObject [ (js "0", JString (js "a")); (js "1", JNull) ]) ]
    (js "name")
  = Some (JString (js "Test" ++ [0] ++ js "Name")) ≫= stored_form.
Proof.
  refine (proj2 (validateAndSanitizeObject_mirror
                   [ (js "name", JString (js "Test" ++ [0] ++ js "Name"));
                     (js "user", JObject [ (js "bio", JString (js "Developer" ++ [0x1F])) ]);
                     (js "tags", JArray [JString (js "a" ++ [0x7F]); JNull]) ]
                   _ _ _) (js "name") _).
  - vm_compute. repeat constructor; intros Hin;
      repeat (apply elem_of_cons in Hin as [Hin | Hin]; [discriminate |]);
      by apply elem_of_nil in Hin.
  - vm_compute. reflexivity.
  - discriminate.
Defined.

(** ** Classification, further *)

(** Splits the alternatives on a method and closes those that equate two
    different literals. *)
Ltac clarify_methods :=
  repeat match goal with
         | H : _ ∧ _ |- _ => destruct H
         | H : _ ∨ _ |- _ => destruct H
         | H : js _ = js _ |- _ => by vm_compute in H
         | H : ?m = js _ |- _ => is_var m; subst m
         | H : js ?a ≠ js ?a |- _ => by destruct H
         end.


Lemma mapHttpMethodToCrudOperation_Ok_iff (method : jsstring)
    (hasResourceId : bool) (op : CrudOperation) :
  mapHttpMethodToCrudOperation method hasResourceId = Ok op
  ↔ (method = js "GET" ∧ op = READ)
    ∨ (method = js "POST" ∧ op = CREATE)
    ∨ ((method = js "PUT" ∨ method = js "PATCH")
       ∧ hasResourceId = true ∧ op = UPDATE)
    ∨ (method = js "DELETE" ∧ hasResourceId = true ∧ op = DELETE).
Proof.
  unfold mapHttpMethodToCrudOperation.
  repeat case_decide; destruct hasResourceId; split;
    try (intros [= <-]); try discriminate; intros; clarify_methods; subst;
    first [done | tauto].
Qed.

Lemma mapHttpMethodToCrudOperation_Err_cases (method : jsstring)
    (hasResourceId : bool) (e : JsError) :
  mapHttpMethodToCrudOperation method hasResourceId = Err e →
  if bool_decide (method ∈ HTTP_METHODS)
  then hasResourceId = false
       ∧ method ∈ [js "PUT"; js "PATCH"; js "DELETE"]
       ∧ error_class e = ValidationError_class
       ∧ error_field e = Some (js "resourceId")
  else e = new_Error (js "Unsupported HTTP method: " ++ method).
Proof.
  intros He.
  destruct (bool_decide (method ∈ HTTP_METHODS)) eqn:Hvalid.
  - apply bool_decide_eq_true in Hvalid. unfold HTTP_METHODS in Hvalid.
    rewrite !elem_of_cons, elem_of_nil in Hvalid.
    destruct Hvalid as [-> | [-> | [-> | [-> | [-> | []]]]]];
      destruct hasResourceId; vm_compute in He; try discriminate He;
      injection He as <-; repeat split; repeat constructor.
  - apply bool_decide_eq_false in Hvalid. unfold HTTP_METHODS in Hvalid.
    rewrite !not_elem_of_cons in Hvalid.
    destruct Hvalid as (Hget & Hpost & Hput & Hpatch & Hdelete & _).
    unfold mapHttpMethodToCrudOperation in He.
    rewrite !decide_False in He by tauto. by injection He as <-.
Qed.

(** X8. The classifier inverted: which inputs give which operation, which
    give a [ValidationError], and that any other method gives the plain
    [Error] "Unsupported HTTP method: " followed by the method. *)
Theorem mapHttpMethodToCrudOperation_inversion (method : jsstring)
    (hasResourceId : bool) :
  (∀ op,
     mapHttpMethodToCrudOperation method hasResourceId = Ok op
     ↔ (method = js "GET" ∧ op = READ)
       ∨ (method = js "POST" ∧ op = CREATE)
       ∨ ((method = js "PUT" ∨ method = js "PATCH")
          ∧ hasResourceId = true ∧ op = UPDATE)
       ∨ (method = js "DELETE" ∧ hasResourceId = true ∧ op = DELETE))
  ∧ (∀ e,
       mapHttpMethodToCrudOperation method hasResourceId = Err e →
       if bool_decide (method ∈ HTTP_METHODS)
       then hasResourceId = false
            ∧ method ∈ [js "PUT"; js "PATCH"; js "DELETE"]
            ∧ error_class e = ValidationError_class
            ∧ error_field e = Some (js "resourceId")
       else e = new_Error (js "Unsupported HTTP method: " ++ method)).
Proof.
  split.
  - apply mapHttpMethodToCrudOperation_Ok_iff.
  - apply mapHttpMethodToCrudOperation_Err_cases.
Qed.

Lemma mapHttpMethodToCrudOperation_inversion_witness :
  new_Error (js "Unsupported HTTP method: OPTIONS")
  = new_Error (js "Unsupported HTTP method: " ++ js "OPTIONS").
Proof.
  exact (proj2 (mapHttpMethodToCrudOperation_inversion (js "OPTIONS") true)
           (new_Error (js "Unsupported HTTP method: OPTIONS")) eq_refl).
Defined.

(** ** Resource identifiers, further *)

Lemma nonempty_string_Some (value : option jsstring) (s : jsstring) :
  nonempty_string value = Some s ↔ value = Some s ∧ s ≠ [].
Proof.
  unfold nonempty_string, str_length. destruct value as [[|c s'] |]; simpl.
  - split; [done | by intros [[= <-] ?]].
  - split; [by intros [= <-] | by intros [[= <-] _]].
  - split; [done | by intros [? _]].
Qed.

Lemma obj_get_elem_of {V} (o : list (jsstring * V)) (key : jsstring) (v : V) :
  obj_get o key = Some v → (key, v) ∈ o.
Proof.
  induction o as [|[k w] o IH]; simpl; [done |].
  destruct (decide (k = key)) as [-> | _].
  - intros [= ->]. by left.
  - intros Hget. right. by apply IH.
Qed.

Lemma first_candidate_Some (p : Params) (names : list jsstring) (value : jsstring) :
  first_candidate p names = Some value →
  ∃ name, name ∈ names ∧ (name, Some value) ∈ p ∧ value ≠ [].
Proof.
  induction names as [|name names IH]; simpl; [done |].
  destruct (nonempty_string (mjoin (obj_get p name))) as [v |] eqn:Hname.
  - intros [= ->]. apply nonempty_string_Some in Hname as [Hget Hne].
    exists name. split; [by left |]. split; [| done].
    destruct (obj_get p name) as [[v |] |] eqn:Hp; try done.
    injection Hget as ->. by apply obj_get_elem_of.
  - intros Hrest. destruct (IH Hrest) as (n & Hn & Hrest').
    exists n. split; [by right | done].
Qed.

Lemma first_id_like_Some (p : Params) (value : jsstring) :
  first_id_like p = Some value →
  ∃ key, (key, Some value) ∈ p
         ∧ includes (toLowerCase key) (js "id") = true ∧ value ≠ [].
Proof.
  induction p as [|[key v] p IH]; simpl; [done |].
  destruct (includes (toLowerCase key) (js "id")) eqn:Hkey.
  - destruct (nonempty_string v) as [s |] eqn:Hv.
    + intros [= ->]. apply nonempty_string_Some in Hv as [-> Hne].
      exists key. split; [by left | done].
    + intros Hrest. destruct (IH Hrest) as (k & Hk & Hrest').
      exists k. split; [by right | done].
  - intros Hrest. destruct (IH Hrest) as (k & Hk & Hrest').
    exists k. split; [by right | done].
Qed.

Lemma first_id_like_None (p : Params) :
  first_id_like p = None
  ↔ ∀ key value, (key, Some value) ∈ p →
                 includes (toLowerCase key) (js "id") = true → value = [].
Proof.
  induction p as [|[key v] p IH]; simpl.
  { split; [intros _ key value Hin; by apply elem_of_nil in Hin | done]. }
  split.
  - intros Hnone k value Hin Hk. apply elem_of_cons in Hin as [[= -> <-] | Hin].
    + rewrite Hk in Hnone. destruct (nonempty_string (Some value)) eqn:Hv; [done |].
      destruct value as [|c value]; [done |]. discriminate Hv.
    + destruct (includes (toLowerCase key) (js "id"));
        [destruct (nonempty_string v); [done |] |]; by eapply IH.
  - intros Hall.
    assert (first_id_like p = None) as Hrest.
    { apply IH. intros k value Hin. apply Hall. by right. }
    destruct (includes (toLowerCase key) (js "id")) eqn:Hkey; [| done].
    destruct (nonempty_string v) as [s |] eqn:Hv; [| done].
    apply nonempty_string_Some in Hv as [-> Hne].
    destruct Hne. apply (Hall key s); [by left | done].
Qed.

Lemma idParameterNames_id_like (name : jsstring) :
  name ∈ idParameterNames → includes (toLowerCase name) (js "id") = true.
Proof.
  unfold idParameterNames. rewrite !elem_of_cons, elem_of_nil.
  intros [-> | [-> | [-> | [-> | []]]]]; reflexivity.
Qed.

Lemma extractResourceId_nonempty (event : Event.t) (value : jsstring) :
  extractResourceId event = Some value → value ≠ [].
Proof.
  unfold extractResourceId.
  destruct (Event.pathParameters event) as [p |]; [| done].
  destruct (first_candidate p idParameterNames) as [v |] eqn:Hcandidate.
  - intros [= ->]. by apply first_candidate_Some in Hcandidate as (_ & _ & _ & ?).
  - intros Hid. by apply first_id_like_Some in Hid as (_ & _ & _ & ?).
Qed.

(** X9. A resource id, when there is one, is never the empty string and is
    always the value of a path parameter whose key contains "id", in any
    letter case. *)
Theorem extractResourceId_sound (event : Event.t) (value : jsstring)
    (Hid : extractResourceId event = Some value) :
  value ≠ []
  ∧ ∃ p key,
      Event.pathParameters event = Some p
      ∧ (key, Some value) ∈ p
      ∧ includes (toLowerCase key) (js "id") = true.
Proof.
  unfold extractResourceId in Hid.
  destruct (Event.pathParameters event) as [p |]; [| done].
  destruct (first_candidate p idParameterNames) as [v |] eqn:Hcandidate.
  - injection Hid as ->.
    apply first_candidate_Some in Hcandidate as (name & Hname & Hin & Hne).
    split; [done |]. exists p, name. repeat split; [done |].
    by apply idParameterNames_id_like.
  - apply first_id_like_Some in Hid as (key & Hin & Hkey & Hne).
    split; [done |]. by exists p, key.
Qed.

Lemma extractResourceId_sound_witness :
  js "xyz" ≠ []
  ∧ ∃ p key,
      Event.pathParameters
        (test_event (js "GET") (Some [(js "customIdField", Some (js "xyz"))]) None)
      = Some p
      ∧ (key, Some (js "xyz")) ∈ p
      ∧ includes (toLowerCase key) (js "id") = true.
Proof.
  apply (extractResourceId_sound
           (test_event (js "GET") (Some [(js "customIdField", Some (js "xyz"))]) None)).
  reflexivity.
Defined.

(** X10. No resource id is found exactly when there are no path
    parameters, or when every parameter whose key contains "id", in any
    letter case, has an empty or undefined value. *)
Theorem extractResourceId_None_iff (event : Event.t) :
  extractResourceId event = None
  ↔ match Event.pathParameters event with
    | None => True
    | Some p =>
        ∀ key value, (key, Some value) ∈ p →
                     includes (toLowerCase key) (js "id") = true → value = []
    end.
Proof.
  unfold extractResourceId.
  destruct (Event.pathParameters event) as [p |]; [| done].
  destruct (first_candidate p idParameterNames) as [v |] eqn:Hcandidate.
  - split; [done |]. intros Hall.
    apply first_candidate_Some in Hcandidate as (name & Hname & Hin & Hne).
    destruct Hne. apply (Hall name v Hin). by apply idParameterNames_id_like.
  - apply first_id_like_None.
Qed.

Lemma extractResourceId_None_iff_witness :
  extractResourceId
    (test_event (js "DELETE")
       (Some [(js "id", Some []); (js "name", Some (js "test"));
              (js "userId", None)]) None)
  = None.
Proof.
  apply (proj2 (extractResourceId_None_iff
                  (test_event (js "DELETE")
                     (Some [(js "id", Some []); (js "name", Some (js "test"));
                            (js "userId", None)]) None))).
  cbv beta iota delta [test_event Event.pathParameters].
  intros key value Hin Hkey.
  apply elem_of_cons in Hin as [[= -> ->] | Hin]; [reflexivity |].
  apply elem_of_cons in Hin as [[= -> ->] | Hin];
    [vm_compute in Hkey; discriminate Hkey |].
  apply elem_of_cons in Hin as [Hin | Hin]; [discriminate Hin |].
  by apply elem_of_nil in Hin.
Defined.

(** ** The request context, further *)

Lemma isValidHttpMethod_string (method : jsstring) :
  isValidHttpMethod (JString method) = true ↔ method ∈ HTTP_METHODS.
Proof. apply bool_decide_eq_true. Qed.

(** X11. [createRequestContext] fails in three ways only, each with a
    [ValidationError]: a method outside the five, with field "method"; or
    [PUT], [PATCH] or [DELETE] with no resource id, with field
    "resourceId".  The classifier's plain [Error] for an unsupported
    method is never returned. *)
Theorem createRequestContext_failures (rt : Runtime) (ev : Event.t)
    (ctx : Context) (e : JsError)
    (Hcontext : createRequestContext rt ev ctx = Return (Err e)) :
  ∃ rc,
    Event.requestContext ev = Some rc
    ∧ (((Event.method (Event.http rc) ∉ HTTP_METHODS)
        ∧ e = ValidationError (js "method")
                (JString (js "Invalid HTTP method: " ++ Event.method (Event.http rc))))
       ∨ (Event.method (Event.http rc) ∈ [js "PUT"; js "PATCH"]
          ∧ extractResourceId ev = None
          ∧ e = ValidationError (js "resourceId")
                  (JString (js "Resource ID required for update operations")))
       ∨ (Event.method (Event.http rc) = js "DELETE"
          ∧ extractResourceId ev = None
          ∧ e = ValidationError (js "resourceId")
                  (JString (js "Resource ID required for delete operations")))).
Proof.
  unfold createRequestContext, get_requestContext in Hcontext.
  destruct (Event.requestContext ev) as [rc |]; [| done].
  exists rc. split; [done |].
  destruct (isValidHttpMethod _) eqn:Hvalid; simpl in Hcontext.
  - right.
    destruct (mapHttpMethodToCrudOperation _ _) as [op | e'] eqn:Hmap; [done |].
    injection Hcontext as ->.
    apply isValidHttpMethod_string in Hvalid. unfold HTTP_METHODS in Hvalid.
    rewrite !elem_of_cons, elem_of_nil in Hvalid.
    destruct (extractResourceId ev) as [id |] eqn:Hid.
    + destruct Hvalid as [Hm | [Hm | [Hm | [Hm | [Hm | []]]]]];
        rewrite Hm in Hmap; vm_compute in Hmap; discriminate Hmap.
    + destruct Hvalid as [Hm | [Hm | [Hm | [Hm | [Hm | []]]]]];
        rewrite Hm in Hmap |- *; vm_compute in Hmap; try discriminate Hmap;
        injection Hmap as <-.
      * left. repeat split. by left.
      * left. repeat split. right. by left.
      * right. by repeat split.
  - left. injection Hcontext as <-. split; [| done].
    intros Hin. apply isValidHttpMethod_string in Hin. congruence.
Qed.

Lemma createRequestContext_failures_witness :
  ∃ rc,
    Event.requestContext (test_event (js "DELETE") (Some []) None) = Some rc
    ∧ (((Event.method (Event.http rc) ∉ HTTP_METHODS)
        ∧ ValidationError (js "resourceId")
            (JString (js "Resource ID required for delete operations"))
          = ValidationError (js "method")
              (JString (js "Invalid HTTP method: " ++ Event.method (Event.http rc))))
       ∨ (Event.method (Event.http rc) ∈ [js "PUT"; js "PATCH"]
          ∧ extractResourceId (test_event (js "DELETE") (Some []) None) = None
          ∧ ValidationError (js "resourceId")
              (JString (js "Resource ID required for delete operations"))
            = ValidationError (js "resourceId")
                (JString (js "Resource ID required for update operations")))
       ∨ (Event.method (Event.http rc) = js "DELETE"
          ∧ extractResourceId (test_event (js "DELETE") (Some []) None) = None
          ∧ ValidationError (js "resourceId")
              (JString (js "Resource ID required for delete operations"))
            = ValidationError (js "resourceId")
                (JString (js "Resource ID required for delete operations")))).
Proof.
  apply (createRequestContext_failures test_runtime _ test_context).
  reflexivity.
Defined.

(** X12. A request context that is built holds the event and the Lambda
    context it was built from and the resource id of the event; its
    operation is the one the method stands for; and an [UPDATE] or
    [DELETE] context always has a resource id, which is not empty. *)
Theorem createRequestContext_success (rt : Runtime) (ev : Event.t)
    (ctx : Context) (requestContext : RequestContext)
    (Hcontext : createRequestContext rt ev ctx = Return (Ok requestContext)) :
  event requestContext = ev
  ∧ context requestContext = ctx
  ∧ resourceId requestContext = extractResourceId ev
  ∧ (∃ rc,
       Event.requestContext ev = Some rc
       ∧ match operation requestContext with
         | READ => Event.method (Event.http rc) = js "GET"
         | CREATE => Event.method (Event.http rc) = js "POST"
         | UPDATE => Event.method (Event.http rc) = js "PUT"
                     ∨ Event.method (Event.http rc) = js "PATCH"
         | DELETE => Event.method (Event.http rc) = js "DELETE"
         end)
  ∧ match operation requestContext with
    | UPDATE | DELETE =>
        ∃ id, resourceId requestContext = Some id ∧ id ≠ []
    | _ => True
    end.
Proof.
  unfold createRequestContext, get_requestContext in Hcontext.
  destruct (Event.requestContext ev) as [rc |]; [| done].
  destruct (negb _); [done |]. cbv zeta in Hcontext.
  destruct (mapHttpMethodToCrudOperation _ _) as [op | e] eqn:Hmap; [| done].
  injection Hcontext as <-. simpl.
  apply mapHttpMethodToCrudOperation_Ok_iff in Hmap.
  repeat split.
  - exists rc. split; [done |].
    destruct Hmap as [[? ->] | [[? ->] | [[? [_ ->]] | [? [_ ->]]]]]; done.
  - destruct Hmap as [[_ ->] | [[_ ->] | [[_ [Hid ->]] | [_ [Hid ->]]]]]; try done.
    all: apply bool_decide_eq_true in Hid.
    all: destruct (extractResourceId ev) as [id |] eqn:Hev; [| done].
    all: exists id; split; [done |]; by eapply extractResourceId_nonempty.
Qed.

Lemma createRequestContext_success_witness :
  ∃ id,
    resourceId
      {| event := test_event (js "PUT") (Some [(js "resourceId", Some (js "item-456"))])
                    None;
         context := test_context;
         operation := UPDATE;
         resourceId := Some (js "item-456") |}
    = Some id ∧ id ≠ [].
Proof.
  apply (createRequestContext_success test_runtime
           (test_event (js "PUT") (Some [(js "resourceId", Some (js "item-456"))]) None)
           test_context
           {| event := test_event (js "PUT")
                         (Some [(js "resourceId", Some (js "item-456"))]) None;
              context := test_context;
              operation := UPDATE;
              resourceId := Some (js "item-456") |}).
  reflexivity.
Defined.

(** ** Responses, further *)

(** X13. Extra headers win over the standard ones on a common name, every
    other standard header is kept, so each of the seven names is always
    present; status and body do not depend on the headers. *)
Theorem createApiResponse_merge (rt : Runtime) (status : Z) (payload : JsValue)
    (extra : gmap jsstring jsstring) :
  (∀ name,
     headers (createApiResponse rt status payload extra) !! name
     = match extra !! name with
       | Some value => Some value
       | None => STANDARD_HEADERS !! name
       end)
  ∧ (∀ name value,
       (name, value) ∈ STANDARD_HEADERS_entries →
       is_Some (headers (createApiResponse rt status payload extra) !! name))
  ∧ statusCode (createApiResponse rt status payload extra) = status
  ∧ body (createApiResponse rt status payload extra) = JSON_stringify rt payload 0.
Proof.
  assert (∀ name,
            headers (createApiResponse rt status payload extra) !! name
            = match extra !! name with
              | Some value => Some value
              | None => STANDARD_HEADERS !! name
              end) as Hlookup.
  { intros name. unfold createApiResponse. simpl. rewrite lookup_union.
    by destruct (extra !! name), (STANDARD_HEADERS !! name). }
  split; [done |]. split; [| done].
  intros name value Hin. rewrite Hlookup.
  destruct (extra !! name); [done |].
  unfold STANDARD_HEADERS_entries in Hin.
  rewrite !elem_of_cons, elem_of_nil in Hin.
  destruct Hin as [[= -> ->] | [[= -> ->] | [[= -> ->] | [[= -> ->]
                  | [[= -> ->] | [[= -> ->] | [[= -> ->] | []]]]]]]];
    vm_compute; eauto.
Qed.

Lemma createApiResponse_merge_witness :
  is_Some (headers (createApiResponse test_runtime 200 JNull
                      {[ js "Content-Type" := js "text/html" ]})
           !! js "Pragma").
Proof.
  apply (proj1 (proj2 (createApiResponse_merge test_runtime 200 JNull
                         {[ js "Content-Type" := js "text/html" ]}))
           (js "Pragma") (js "no-cache")).
  unfold STANDARD_HEADERS_entries. repeat constructor.
Defined.

(** ** Runs of the handler *)

Lemma advance_advance (st : State) (entries entries' : list LogEntry) (n n' : nat) :
  advance (advance st entries n) entries' n'
  = advance st (entries ++ entries') (n' + n).
Proof. unfold advance. simpl. by rewrite <- app_assoc, Nat.add_assoc. Qed.

Lemma errorResponse_state rt (e : JsError) (status : Z) (st : State) :
  errorResponse rt (inl e) (Some status) st
  = (Return (error_envelope rt e status), advance st [api_error_entry rt e status] 0).
Proof.
  unfold errorResponse, mbind, M_bind, emit, mret, M_ret. simpl.
  by rewrite createApiResponse_no_extra_headers.
Qed.

Lemma logRequest_state rt (requestContext : RequestContext)
    (rc : Event.RequestContext) (st : State) :
  Event.requestContext (event requestContext) = Some rc →
  ∃ fields,
    logRequest rt requestContext st
    = (Return (), advance st [logger_info (js "Incoming request") fields] 0).
Proof.
  intros Hrc. unfold logRequest, get_requestContext, lift, mbind, M_bind, emit.
  rewrite Hrc. eexists. reflexivity.
Qed.

Lemma handler_dispatch_state rt (requestContext : RequestContext)
    (rc : Event.RequestContext) (requestBody : option JsRecord) (st : State) :
  Event.requestContext (event requestContext) = Some rc →
  ∃ entries,
    handler_dispatch rt requestContext requestBody st
    = (Return (success_envelope rt requestContext
                 (Date_toISOString rt (S (clock st)))),
       advance st (banner_entry (operation requestContext) :: entries) 2)
    ∧ Forall (λ entry, is_console_log entry = true) entries
    ∧ match operation requestContext with
      | CREATE | UPDATE => body_entry rt requestBody ∈ entries
      | _ => True
      end.
Proof.
  intros Hrc.
  unfold handler_dispatch, handleCreate, handleRead, handleUpdate, handleDelete,
    log_request_lines, log_request_body, log_headers, get_requestContext, lift,
    mbind, M_bind, emit, now, mret, M_ret, successResponse, success_envelope,
    advance, banner_entry, body_entry.
  rewrite Hrc.
  destruct (operation requestContext).
  - destruct requestBody as [[|entry entries] |];
      cbv beta iota delta [log clock default];
      rewrite createApiResponse_no_extra_headers, <- !app_assoc; cbn [app];
      eexists;
      (split; [reflexivity |
       split; [by repeat constructor |
               by do 5 apply list_elem_of_further; apply list_elem_of_here]]).
  - destruct (resourceId requestContext) as [[|c id] |],
      (Event.queryStringParameters (event requestContext));
      cbv beta iota delta [log clock default];
      rewrite createApiResponse_no_extra_headers, <- !app_assoc; cbn [app];
      eexists; (split; [reflexivity | split; [by repeat constructor | done]]).
  - destruct requestBody as [[|entry entries] |];
      cbv beta iota delta [log clock default];
      rewrite createApiResponse_no_extra_headers, <- !app_assoc; cbn [app];
      eexists;
      (split; [reflexivity |
       split; [by repeat constructor |
               by do 7 apply list_elem_of_further; apply list_elem_of_here]]).
  - cbv beta iota delta [log clock default];
      rewrite createApiResponse_no_extra_headers, <- !app_assoc; cbn [app];
      eexists; (split; [reflexivity | split; [by repeat constructor | done]]).
Qed.

Lemma advance_nil (st : State) : advance st [] 0 = st.
Proof. destruct st. unfold advance. simpl. by rewrite app_nil_r. Qed.

Lemma finalizer_state rt (st : State) :
  (if segment rt then emit segment_close else mret ()) st
  = (Return (), advance st (closing_entries rt) 0).
Proof.
  unfold closing_entries. destruct (segment rt); [done |].
  by rewrite advance_nil.
Qed.

(** The handler around a [try] block that returns. *)
Lemma handler_run_Return rt ev ctx (st st1 : State) (response : ApiResponse) :
  handler_try rt ev ctx (advance st [attributes_entry ctx] 0) = (Return response, st1) →
  handler rt ev ctx st = (Return response, advance st1 (closing_entries rt) 0).
Proof.
  intros Htry. unfold handler, mbind, M_bind, emit, try_catch_finally.
  change {| log := log st ++ _; clock := clock st |}
    with (advance st [attributes_entry ctx] 0).
  rewrite Htry. cbn [fst snd]. by rewrite finalizer_state.
Qed.

(** The handler around a [try] block that throws. *)
Lemma handler_run_Throw rt ev ctx (st st1 st2 : State) (t : Thrown)
    (response : ApiResponse) :
  handler_try rt ev ctx (advance st [attributes_entry ctx] 0) = (Throw t, st1) →
  handler_catch rt t st1 = (Return response, st2) →
  handler rt ev ctx st = (Return response, advance st2 (closing_entries rt) 0).
Proof.
  intros Htry Hcatch. unfold handler, mbind, M_bind, emit, try_catch_finally.
  change {| log := log st ++ _; clock := clock st |}
    with (advance st [attributes_entry ctx] 0).
  rewrite Htry, Hcatch. cbn [fst snd]. by rewrite finalizer_state.
Qed.

Lemma handler_try_request_body rt ev ctx (st : State)
    (requestContext : RequestContext) :
  createRequestContext rt ev ctx = Return (Ok requestContext) →
  handler_try rt ev ctx st
  = (logRequest rt requestContext;;
     match request_body rt ev with
     | Err e => errorResponse rt (inl e) (Some 400%Z)
     | Ok requestBody => handler_dispatch rt requestContext requestBody
     end) st.
Proof.
  intros Hcontext. unfold handler_try, request_body, lift, mbind, M_bind.
  rewrite Hcontext.
  destruct (logRequest rt requestContext st) as [[[] | t] st']; [| done].
  destruct (hasBody ev); [| done].
  destruct (parseRequestBody rt (Event.body ev)) as [parsed | e]; [| done].
  by destruct (validateAndSanitizeObject parsed).
Qed.

(** The three ways the [try] block ends for an event that has its
    [requestContext]. *)
Lemma handler_try_state rt ev ctx (st : State) (rc : Event.RequestContext) :
  Event.requestContext ev = Some rc →
  match createRequestContext rt ev ctx with
  | Throw _ => False
  | Return (Err e) =>
      handler_try rt ev ctx st
      = (Return (error_envelope rt e 400), advance st [api_error_entry rt e 400] 0)
  | Return (Ok requestContext) =>
      ∃ fields,
        match request_body rt ev with
        | Err e =>
            handler_try rt ev ctx st
            = (Return (error_envelope rt e 400),
               advance st [logger_info (js "Incoming request") fields;
                           api_error_entry rt e 400] 0)
        | Ok requestBody =>
            ∃ entries,
              handler_try rt ev ctx st
              = (Return (success_envelope rt requestContext
                           (Date_toISOString rt (S (clock st)))),
                 advance st (logger_info (js "Incoming request") fields
                             :: banner_entry (operation requestContext)
                             :: entries) 2)
              ∧ Forall (λ entry, is_console_log entry = true) entries
              ∧ match operation requestContext with
                | CREATE | UPDATE => body_entry rt requestBody ∈ entries
                | _ => True
                end
        end
  end.
Proof.
  intros Hrc.
  destruct (createRequestContext rt ev ctx) as [[requestContext | e] | t]
    eqn:Hcontext.
  - rewrite (handler_try_request_body _ _ _ _ requestContext) by done.
    destruct (createRequestContext_Ok _ _ _ _ Hcontext) as (rc' & op & Hrc' & ->).
    destruct (logRequest_state rt
                {| event := ev; context := ctx; operation := op;
                   resourceId := extractResourceId ev |} rc' st Hrc')
      as [fields Hlog].
    exists fields. unfold mbind, M_bind. rewrite Hlog.
    destruct (request_body rt ev) as [requestBody | e].
    + destruct (handler_dispatch_state rt
                  {| event := ev; context := ctx; operation := op;
                     resourceId := extractResourceId ev |} rc' requestBody
                  (advance st [logger_info (js "Incoming request") fields] 0) Hrc')
        as (entries & Hdispatch & Hconsole & Hbody).
      exists entries. rewrite Hdispatch, advance_advance. by repeat split.
    + by rewrite errorResponse_state, advance_advance.
  - unfold handler_try, lift, mbind, M_bind. rewrite Hcontext.
    apply errorResponse_state.
  - unfold createRequestContext, get_requestContext in Hcontext.
    rewrite Hrc in Hcontext. destruct (negb _); [done |].
    by destruct (mapHttpMethodToCrudOperation _ _).
Qed.

Lemma request_body_Ok rt ev (requestBody : option JsRecord) :
  request_body rt ev = Ok requestBody
  ↔ (hasBody ev = false ∧ requestBody = None)
    ∨ (hasBody ev = true
       ∧ ∃ parsed sanitized,
           parseRequestBody rt (Event.body ev) = Ok parsed
           ∧ validateAndSanitizeObject parsed = Ok sanitized
           ∧ requestBody = Some sanitized).
Proof.
  unfold request_body. destruct (hasBody ev).
  - destruct (parseRequestBody rt (Event.body ev)) as [parsed | e].
    + destruct (validateAndSanitizeObject parsed) as [sanitized | e] eqn:Hs.
      * split.
        -- intros [= <-]. right. split; [done |]. by exists parsed, sanitized.
        -- intros [[? _] | [_ (p & s & [= <-] & Hs' & ->)]]; [done |].
           rewrite Hs in Hs'. by injection Hs' as ->.
      * split; [done |].
        intros [[? _] | [_ (p & s & [= <-] & Hs' & _)]]; [done |].
        rewrite Hs in Hs'. done.
    + split; [done |]. by intros [[? _] | [_ (p & s & ? & _)]].
  - split.
    + intros [= <-]. by left.
    + by intros [[_ ->] | [? _]].
Qed.

Lemma request_body_Err rt ev (e : JsError) :
  request_body rt ev = Err e
  ↔ hasBody ev = true
    ∧ (parseRequestBody rt (Event.body ev) = Err e
       ∨ ∃ parsed, parseRequestBody rt (Event.body ev) = Ok parsed
                   ∧ validateAndSanitizeObject parsed = Err e).
Proof.
  unfold request_body. destruct (hasBody ev).
  - destruct (parseRequestBody rt (Event.body ev)) as [parsed | e'].
    + destruct (validateAndSanitizeObject parsed) as [sanitized | e'] eqn:Hs.
      * split; [done |].
        intros [_ [? | (p & [= <-] & Hs')]]; [done |]. rewrite Hs in Hs'. done.
      * split.
        -- intros [= <-]. split; [done |]. right. by exists parsed.
        -- intros [_ [? | (p & [= <-] & Hs')]]; [done |].
           rewrite Hs in Hs'. by injection Hs' as ->.
    + split.
      * intros [= <-]. split; [done |]. by left.
      * intros [_ [[= <-] | (p & ? & _)]]; done.
  - split; [done | by intros [? _]].
Qed.

Lemma handler_catch_unexpected rt (e : JsError) (st : State) :
  error_class e ≠ ValidationError_class →
  error_class e ≠ AuthorizationError_class →
  error_class e ≠ NotFoundError_class →
  handler_catch rt (ThrownError e) st
  = (Return (error_envelope rt e 500),
     advance st [unexpected_error_entry rt e; api_error_entry rt e 500] 0).
Proof.
  intros Hvalidation Hauthorization Hnotfound.
  unfold handler_catch, instanceof.
  rewrite !bool_decide_eq_false_2 by done.
  unfold mbind, M_bind, emit. cbv beta iota.
  rewrite errorResponse_state. unfold advance. simpl.
  by rewrite <- app_assoc.
Qed.

Lemma handler_catch_TypeError rt (st : State) :
  handler_catch rt (ThrownError (TypeError rt)) st
  = (Return (error_envelope rt (TypeError rt) 500),
     advance st [unexpected_error_entry rt (TypeError rt);
                 api_error_entry rt (TypeError rt) 500] 0).
Proof. by apply handler_catch_unexpected. Qed.

(** Every run of the handler, by the path it takes. *)
Lemma handler_run rt ev ctx (st : State) :
  ∃ response middle readings,
    handler rt ev ctx st
    = (Return response,
       advance st (attributes_entry ctx :: middle ++ closing_entries rt) readings)
    ∧ ((Event.requestContext ev = None
        ∧ response = error_envelope rt (TypeError rt) 500
        ∧ middle = [unexpected_error_entry rt (TypeError rt);
                    api_error_entry rt (TypeError rt) 500]
        ∧ readings = 0%nat)
       ∨ (∃ e,
            createRequestContext rt ev ctx = Return (Err e)
            ∧ response = error_envelope rt e 400
            ∧ middle = [api_error_entry rt e 400]
            ∧ readings = 0%nat)
       ∨ (∃ requestContext e fields,
            createRequestContext rt ev ctx = Return (Ok requestContext)
            ∧ request_body rt ev = Err e
            ∧ response = error_envelope rt e 400
            ∧ middle = [logger_info (js "Incoming request") fields;
                        api_error_entry rt e 400]
            ∧ readings = 0%nat)
       ∨ (∃ requestContext requestBody fields entries,
            createRequestContext rt ev ctx = Return (Ok requestContext)
            ∧ request_body rt ev = Ok requestBody
            ∧ response = success_envelope rt requestContext
                           (Date_toISOString rt (S (clock st)))
            ∧ middle = logger_info (js "Incoming request") fields
                       :: banner_entry (operation requestContext) :: entries
            ∧ readings = 2%nat
            ∧ Forall (λ entry, is_console_log entry = true) entries
            ∧ match operation requestContext with
              | CREATE | UPDATE => body_entry rt requestBody ∈ entries
              | _ => True
              end)).
Proof.
  destruct (Event.requestContext ev) as [rc |] eqn:Hrc.
  - pose proof (handler_try_state rt ev ctx
                  (advance st [attributes_entry ctx] 0) rc Hrc) as Htry.
    destruct (createRequestContext rt ev ctx) as [[requestContext | e] | t]
      eqn:Hcontext; [| | done].
    + destruct Htry as [fields Htry].
      destruct (request_body rt ev) as [requestBody | e] eqn:Hbody.
      * destruct Htry as (entries & Htry & Hconsole & Hentry).
        eexists _, _, _. split.
        { rewrite (handler_run_Return _ _ _ _ _ _ Htry), !advance_advance.
          reflexivity. }
        do 3 right. exists requestContext, requestBody, fields, entries.
        by repeat split.
      * eexists _, _, _. split.
        { rewrite (handler_run_Return _ _ _ _ _ _ Htry), !advance_advance.
          reflexivity. }
        right. right. left. by exists requestContext, e, fields.
    + eexists _, _, _. split.
      { rewrite (handler_run_Return _ _ _ _ _ _ Htry), !advance_advance.
        reflexivity. }
      right. left. by exists e.
  - assert (handler_try rt ev ctx (advance st [attributes_entry ctx] 0)
            = (Throw (ThrownError (TypeError rt)),
               advance st [attributes_entry ctx] 0)) as Htry.
    { unfold handler_try, createRequestContext, get_requestContext, lift,
        mbind, M_bind. by rewrite Hrc. }
    pose proof (handler_run_Throw _ _ _ _ _ _ _ _ Htry
                  (handler_catch_TypeError rt _)) as Hrun.
    rewrite !advance_advance in Hrun.
    eexists _, _, _. split; [exact Hrun |]. by left.
Qed.

Lemma createRequestContext_missing rt ev ctx :
  Event.requestContext ev = None →
  createRequestContext rt ev ctx = Throw (ThrownError (TypeError rt)).
Proof. intros Hrc. unfold createRequestContext, get_requestContext. by rewrite Hrc. Qed.

(** X14. A request that fails classification is answered with status 400
    and the name and message of the error.  The log gains the persistent
    attributes, one "API Error" record and the closing of the segment:
    the request line is not logged, no operation handler prints, the
    clock is not read. *)
Theorem handler_classification_failure_run (rt : Runtime) (ev : Event.t)
    (ctx : Context) (st : State) (e : JsError)
    (Hcontext : createRequestContext rt ev ctx = Return (Err e)) :
  handler rt ev ctx st
  = (Return (error_envelope rt e 400),
     advance st (attributes_entry ctx :: api_error_entry rt e 400
                 :: closing_entries rt) 0).
Proof.
  destruct (handler_run rt ev ctx st) as (response & middle & readings & Hrun & Hpath).
  rewrite Hrun.
  destruct Hpath as [(Hrc & _) | [(e' & He' & -> & -> & ->)
                    | [(rcx & e' & fields & Hok & _) | (rcx & b & fields & entries & Hok & _)]]].
  - rewrite (createRequestContext_missing _ _ _ Hrc) in Hcontext. done.
  - rewrite Hcontext in He'. by injection He' as <-.
  - rewrite Hcontext in Hok. done.
  - rewrite Hcontext in Hok. done.
Qed.

Lemma handler_classification_failure_run_witness :
  handler test_runtime (test_event (js "PATCH") (Some [(js "name", Some (js "x"))]) None)
    test_context initial_state
  = (Return (error_envelope test_runtime
               (ValidationError (js "resourceId")
                  (JString (js "Resource ID required for update operations"))) 400),
     advance initial_state
       (attributes_entry test_context
        :: api_error_entry test_runtime
             (ValidationError (js "resourceId")
                (JString (js "Resource ID required for update operations"))) 400
        :: closing_entries test_runtime) 0).
Proof.
  apply handler_classification_failure_run. reflexivity.
Defined.

(** X15. A request that passes classification but whose body does not
    parse, or parses to something the sanitizer refuses, is answered with
    status 400 and a [ValidationError].  The request line is logged before
    the "API Error" record; no operation handler prints, whatever the
    operation is. *)
Theorem handler_body_failure_run (rt : Runtime) (ev : Event.t) (ctx : Context)
    (st : State) (requestContext : RequestContext) (e : JsError)
    (Hcontext : createRequestContext rt ev ctx = Return (Ok requestContext))
    (Hbody : hasBody ev = true)
    (Hfail : parseRequestBody rt (Event.body ev) = Err e
             ∨ ∃ parsed, parseRequestBody rt (Event.body ev) = Ok parsed
                         ∧ validateAndSanitizeObject parsed = Err e) :
  error_name e = js "ValidationError"
  ∧ ∃ fields,
      handler rt ev ctx st
      = (Return (error_envelope rt e 400),
         advance st (attributes_entry ctx
                     :: logger_info (js "Incoming request") fields
                     :: api_error_entry rt e 400
                     :: closing_entries rt) 0).
Proof.
  split.
  { destruct Hfail as [Hparse | (parsed & _ & Hsanitize)].
    - unfold parseRequestBody in Hparse.
      destruct (Event.body ev) as [[|c s] |]; try done.
      destruct (JSON_parse rt (c :: s)); [done |]. by injection Hparse as <-.
    - by destruct (validateAndSanitizeObject_Err _ _ Hsanitize) as (f & v & ->). }
  assert (request_body rt ev = Err e) as Hrequest by by apply request_body_Err.
  destruct (handler_run rt ev ctx st) as (response & middle & readings & Hrun & Hpath).
  rewrite Hrun.
  destruct Hpath as [(Hrc & _) | [(e' & He' & _)
                    | [(rcx & e' & fields & _ & Herr & -> & -> & ->)
                      | (rcx & b & fields & entries & _ & Hok & _)]]].
  - rewrite (createRequestContext_missing _ _ _ Hrc) in Hcontext. done.
  - rewrite Hcontext in He'. done.
  - rewrite Hrequest in Herr. injection Herr as <-. by exists fields.
  - rewrite Hrequest in Hok. done.
Qed.

Lemma handler_body_failure_run_witness :
  ∃ fields,
    handler test_runtime
      (test_event (js "GET") None (Some (js "{ invalid json }")))
      test_context initial_state
    = (Return (error_envelope test_runtime
                 (ValidationError (js "body")
                    (JString (js "Invalid JSON: Unexpected token"))) 400),
       advance initial_state
         (attributes_entry test_context
          :: logger_info (js "Incoming request") fields
          :: api_error_entry test_runtime
               (ValidationError (js "body")
                  (JString (js "Invalid JSON: Unexpected token"))) 400
          :: closing_entries test_runtime) 0).
Proof.
  refine (proj2 (handler_body_failure_run test_runtime
                   (test_event (js "GET") None (Some (js "{ invalid json }")))
                   test_context initial_state
                   {| event := test_event (js "GET") None (Some (js "{ invalid json }"));
                      context := test_context;
                      operation := READ;
                      resourceId := None |}
                   (ValidationError (js "body")
                      (JString (js "Invalid JSON: Unexpected token")))
                   _ _ _)).
  - reflexivity.
  - reflexivity.
  - left. reflexivity.
Defined.

(** X16. A request that passes classification and whose body, if any,
    parses and is sanitized is answered with status 200, the operation,
    the resource id and the second reading of the clock.  After the
    request line the log holds the banner of that operation, then console
    lines only; for [CREATE] and [UPDATE] one of them is the body line,
    which shows the sanitized record and not the parsed one. *)
Theorem handler_success_run (rt : Runtime) (ev : Event.t) (ctx : Context)
    (st : State) (requestContext : RequestContext) (requestBody : option JsRecord)
    (Hcontext : createRequestContext rt ev ctx = Return (Ok requestContext))
    (Hbody : (hasBody ev = false ∧ requestBody = None)
             ∨ (hasBody ev = true
                ∧ ∃ parsed sanitized,
                    parseRequestBody rt (Event.body ev) = Ok parsed
                    ∧ validateAndSanitizeObject parsed = Ok sanitized
                    ∧ requestBody = Some sanitized)) :
  ∃ fields entries,
    handler rt ev ctx st
    = (Return (success_envelope rt requestContext
                 (Date_toISOString rt (S (clock st)))),
       advance st (attributes_entry ctx
                   :: (logger_info (js "Incoming request") fields
                       :: banner_entry (operation requestContext) :: entries)
                      ++ closing_entries rt) 2)
    ∧ Forall (λ entry, is_console_log entry = true) entries
    ∧ match operation requestContext with
      | CREATE | UPDATE => body_entry rt requestBody ∈ entries
      | _ => True
      end.
Proof.
  assert (request_body rt ev = Ok requestBody) as Hrequest by by apply request_body_Ok.
  destruct (handler_run rt ev ctx st) as (response & middle & readings & Hrun & Hpath).
  rewrite Hrun.
  destruct Hpath as [(Hrc & _) | [(e' & He' & _)
                    | [(rcx & e' & fields & _ & Herr & _)
                      | (rcx & b & fields & entries & Hcx & Hok & -> & -> & -> & Hrest)]]].
  - rewrite (createRequestContext_missing _ _ _ Hrc) in Hcontext. done.
  - rewrite Hcontext in He'. done.
  - rewrite Hrequest in Herr. done.
  - rewrite Hrequest in Hok. injection Hok as <-.
    rewrite Hcontext in Hcx. injection Hcx as <-.
    by exists fields, entries.
Qed.

Lemma handler_success_run_witness :
  ∃ fields entries,
    handler
      (with_JSON_parse
         (λ _, Return (JObject [ (js "name", JString (js "Test" ++ [0] ++ js "Item")) ]))
         test_runtime)
      (test_event (js "POST") None (Some (js "{}")))
      test_context initial_state
    = (Return (success_envelope test_runtime
                 {| event := test_event (js "POST") None (Some (js "{}"));
                    context := test_context;
                    operation := CREATE;
                    resourceId := None |}
                 (Date_toISOString test_runtime 1)),
       advance initial_state
         (attributes_entry test_context
          :: (logger_info (js "Incoming request") fields
              :: banner_entry CREATE :: entries)
             ++ closing_entries test_runtime) 2)
    ∧ Forall (λ entry, is_console_log entry = true) entries
    ∧ body_entry test_runtime (Some [ (js "name", JString (js "TestItem")) ])
      ∈ entries.
Proof.
  refine (handler_success_run
            (with_JSON_parse
               (λ _, Return (JObject [ (js "name", JString (js "Test" ++ [0] ++ js "Item")) ]))
               test_runtime)
            (test_event (js "POST") None (Some (js "{}")))
            test_context initial_state
            {| event := test_event (js "POST") None (Some (js "{}"));
               context := test_context;
               operation := CREATE;
               resourceId := None |}
            (Some [ (js "name", JString (js "TestItem")) ]) _ _).
  - reflexivity.
  - right. split; [reflexivity |].
    exists (JObject [ (js "name", JString (js "Test" ++ [0] ++ js "Item")) ]),
      [ (js "name", JString (js "TestItem")) ].
    repeat split; vm_compute; reflexivity.
Defined.

(** X17. An event without [requestContext] makes the [try] block throw a
    [TypeError]; the [catch] block answers with status 500 and the name
    and message of that error, after logging "Unexpected error in Lambda
    handler" and then "API Error"; the segment is closed all the same. *)
Theorem handler_missing_requestContext_run (rt : Runtime) (ev : Event.t)
    (ctx : Context) (st : State)
    (Hmissing : Event.requestContext ev = None) :
  handler rt ev ctx st
  = (Return {| statusCode := 500;
               headers := STANDARD_HEADERS;
               body := JSON_stringify rt
                         (error_body (js "TypeError") (TypeError_message rt)) 0 |},
     advance st (attributes_entry ctx
                 :: unexpected_error_entry rt (TypeError rt)
                 :: api_error_entry rt (TypeError rt) 500
                 :: closing_entries rt) 0).
Proof.
  destruct (handler_run rt ev ctx st) as (response & middle & readings & Hrun & Hpath).
  rewrite Hrun.
  destruct Hpath as [(_ & -> & -> & ->) | [(e' & He' & _)
                    | [(rcx & e' & fields & Hok & _)
                      | (rcx & b & fields & entries & Hok & _)]]].
  - done.
  - by rewrite (createRequestContext_missing _ _ _ Hmissing) in He'.
  - by rewrite (createRequestContext_missing _ _ _ Hmissing) in Hok.
  - by rewrite (createRequestContext_missing _ _ _ Hmissing) in Hok.
Qed.

Lemma handler_missing_requestContext_run_witness :
  statusCode <$> response_of
    (handler test_runtime
       {| Event.requestContext := None;
          Event.headers := [];
          Event.queryStringParameters := None;
          Event.pathParameters := None;
          Event.body := None |}
       test_context initial_state)
  = Some 500%Z.
Proof.
  rewrite (handler_missing_requestContext_run test_runtime
             {| Event.requestContext := None;
                Event.headers := [];
                Event.queryStringParameters := None;
                Event.pathParameters := None;
                Event.body := None |}
             test_context initial_state eq_refl).
  reflexivity.
Defined.



(** X19. On every path the handler keeps the log it was given, logs the
    persistent attributes first and, when a tracer segment is active,
    closes it last.  Unless the answer is 200 nothing is printed to the
    console and the clock is not read; for a 200 the clock is read twice. *)
Theorem handler_log_frame (rt : Runtime) (ev : Event.t) (ctx : Context)
    (st : State) :
  ∃ response middle readings,
    handler rt ev ctx st
    = (Return response,
       advance st (attributes_entry ctx :: middle ++ closing_entries rt) readings)
    ∧ (statusCode response ≠ 200%Z →
       readings = 0%nat ∧ Forall (λ entry, is_console_log entry = false) middle)
    ∧ (statusCode response = 200%Z → readings = 2%nat).
Proof.
  destruct (handler_run rt ev ctx st) as (response & middle & readings & Hrun & Hpath).
  exists response, middle, readings. split; [done |].
  destruct Hpath as [(_ & -> & -> & ->) | [(e & _ & -> & -> & ->)
                    | [(rcx & e & fields & _ & _ & -> & -> & ->)
                      | (rcx & b & fields & entries & _ & _ & -> & -> & -> & _)]]];
    simpl; split; try done; intros _; split; try done; repeat constructor.
Qed.

Lemma handler_log_frame_witness :
  ∃ response middle readings,
    handler test_runtime (test_event (js "CONNECT") None None) test_context
      initial_state
    = (Return response,
       advance initial_state
         (attributes_entry test_context :: middle ++ closing_entries test_runtime)
         readings)
    ∧ readings = 0%nat
    ∧ Forall (λ entry, is_console_log entry = false) middle.
Proof.
  destruct (handler_log_frame test_runtime (test_event (js "CONNECT") None None)
              test_context initial_state)
    as (response & middle & readings & Hrun & Hquiet & _).
  exists response, middle, readings. split; [exact Hrun |].
  apply Hquiet.
  assert (response_of (handler test_runtime (test_event (js "CONNECT") None None)
                         test_context initial_state) = Some response) as Hresponse.
  { by rewrite Hrun. }
  injection Hresponse as <-. discriminate.
Defined.


(** ** The guards and assertions of [types.ts], further *)

(** X21. A value passes both [assertDefined] and [assertNotNull] exactly
    when [isNonNullable] holds of it; [null] passes [assertDefined] and
    [undefined] passes [assertNotNull]; a failed assertion throws an
    [Error] with the caller's message, or "Value is undefined" and "Value
    is null" when none is given. *)
Theorem assertions_and_isNonNullable (value : JsValue)
    (message message' : option jsstring) :
  (isNonNullable value = true
   ↔ assertDefined value message = Return ()
     ∧ assertNotNull value message' = Return ())
  ∧ assertDefined JNull message = Return ()
  ∧ assertNotNull JUndefined message' = Return ()
  ∧ assertDefined JUndefined message
    = Throw (ThrownError (new_Error (default (js "Value is undefined") message)))
  ∧ assertNotNull JNull message'
    = Throw (ThrownError (new_Error (default (js "Value is null") message'))).
Proof.
  repeat split; destruct value; try done; by intros [? ?].
Qed.

Lemma assertions_and_isNonNullable_witness :
  assertDefined (JString []) None = Return ()
  ∧ assertNotNull (JString []) (Some (js "Custom null error")) = Return ().
Proof.
  apply (proj1 (proj1 (assertions_and_isNonNullable (JString []) None
                         (Some (js "Custom null error"))))).
  reflexivity.
Defined.

(** ** What the response depends on *)

Lemma extractResourceId_pathParameters (ev ev' : Event.t) :
  Event.pathParameters ev = Event.pathParameters ev' →
  extractResourceId ev = extractResourceId ev'.
Proof. unfold extractResourceId. by intros ->. Qed.

Lemma request_body_body rt (ev ev' : Event.t) :
  Event.body ev = Event.body ev' → request_body rt ev = request_body rt ev'.
Proof. unfold request_body, hasBody. by intros ->. Qed.

Lemma createRequestContext_agree rt (ev ev' : Event.t) (ctx ctx' : Context) :
  Event.method ∘ Event.http <$> Event.requestContext ev
  = Event.method ∘ Event.http <$> Event.requestContext ev' →
  Event.pathParameters ev = Event.pathParameters ev' →
  match createRequestContext rt ev ctx, createRequestContext rt ev' ctx' with
  | Throw _, Throw _ =>
      Event.requestContext ev = None ∧ Event.requestContext ev' = None
  | Return (Err e), Return (Err e') => e = e'
  | Return (Ok requestContext), Return (Ok requestContext') =>
      operation requestContext = operation requestContext'
      ∧ resourceId requestContext = resourceId requestContext'
  | _, _ => False
  end.
Proof.
  intros Hmethod Hparams.
  unfold createRequestContext, get_requestContext.
  rewrite (extractResourceId_pathParameters ev ev') by done.
  destruct (Event.requestContext ev) as [rc |],
    (Event.requestContext ev') as [rc' |]; try done.
  injection Hmethod as Hmethod. simpl in Hmethod. rewrite Hmethod.
  destruct (negb _); [done |]. cbv zeta.
  by destruct (mapHttpMethodToCrudOperation _ _).
Qed.

(** X22. The response is a function of the method, the path parameters,
    the body and the clock alone: two events that agree on these get the
    same envelope, whatever their headers, query parameters, path, source
    address and request ids, the Lambda context and the log so far are. *)
Theorem handler_response_depends_on (rt : Runtime) (ev ev' : Event.t)
    (ctx ctx' : Context) (st st' : State)
    (Hmethod : Event.method ∘ Event.http <$> Event.requestContext ev
               = Event.method ∘ Event.http <$> Event.requestContext ev')
    (Hparams : Event.pathParameters ev = Event.pathParameters ev')
    (Hbody : Event.body ev = Event.body ev')
    (Hclock : clock st = clock st') :
  response_of (handler rt ev ctx st) = response_of (handler rt ev' ctx' st').
Proof.
  pose proof (createRequestContext_agree rt ev ev' ctx ctx' Hmethod Hparams) as Hagree.
  pose proof (request_body_body rt ev ev' Hbody) as Hrequest.
  destruct (handler_run rt ev ctx st) as (r & middle & readings & Hrun & Hpath).
  destruct (handler_run rt ev' ctx' st') as (r' & middle' & readings' & Hrun' & Hpath').
  unfold response_of. rewrite Hrun, Hrun'. simpl. f_equal.
  destruct Hpath as [(Hrc & -> & _) | [(e & He & -> & _)
                    | [(rcx & e & fields & Hok & Herr & -> & _)
                      | (rcx & b & fields & entries & Hok & Hb & -> & _)]]];
    destruct Hpath' as [(Hrc' & -> & _) | [(e' & He' & -> & _)
                       | [(rcx' & e' & fields' & Hok' & Herr' & -> & _)
                         | (rcx' & b' & fields' & entries' & Hok' & Hb' & -> & _)]]];
    try (rewrite (createRequestContext_missing _ _ _ Hrc) in Hagree);
    try (rewrite (createRequestContext_missing _ _ _ Hrc') in Hagree);
    try rewrite He in Hagree; try rewrite He' in Hagree;
    try rewrite Hok in Hagree; try rewrite Hok' in Hagree;
    try done; try congruence.
  destruct Hagree as [Hop Hid]. unfold success_envelope.
  by rewrite Hop, Hid, Hclock.
Qed.

Lemma handler_response_depends_on_witness :
  response_of
    (handler test_runtime
       {| Event.requestContext := Event.requestContext (test_event (js "GET") None None);
          Event.headers := [(js "x-evil", Some (js "value"))];
          Event.queryStringParameters := Some [(js "limit", Some (js "10"))];
          Event.pathParameters := None;
          Event.body := None |}
       {| awsRequestId := js "other"; functionName := js "other" |}
       {| log := [segment_close]; clock := 0 |})
  = response_of
      (handler test_runtime (test_event (js "GET") None None) test_context
         initial_state).
Proof.
  apply handler_response_depends_on; reflexivity.
Defined.
